(** * ArchiveBox [archivebox/api/models.py]: API tokens and outbound webhooks

    A shallow embedding of the two Django models of [archivebox.api.models]
    ([APIToken] and [OutboundWebhook]), of the helpers they call from the
    Python standard library ([secrets.token_hex], [uuid.uuid4],
    [datetime.isoformat], [datetime + timedelta]) and of the part of the
    ORM their field declarations rely on (defaults, [unique=True]).

    Layout: Python values and exceptions, the [datetime] model, hexadecimal
    rendering and the random source, the two models with their ABID source
    declarations, their methods, the table of credentials; then the lemmas
    and the theorems about them. *)

From Stdlib Require Import ZArith NArith String Ascii List Bool Lia DecimalString.
From stdpp Require Import gmap strings.
Import ListNotations.

Local Open Scope Z_scope.

(** ** Exceptions and fallible computations *)

(** The Python exceptions the modelled code can raise. *)
Inductive exn : Type :=
| AttributeError
| OverflowError
| IntegrityError
| ResolutionError.

(** A Python call either returns a value or raises. *)
Inductive result (A : Type) : Type :=
| Ok (a : A)
| Raise (e : exn).
Arguments Ok {A} a.
Arguments Raise {A} e.

(** Sequencing: the first exception raised aborts the rest; this gives
    [result] stdpp's [x ← r; k] notation. *)
#[global] Instance result_bind : MBind result :=
  fun A B (k : A -> result B) (r : result A) =>
    match r with
    | Ok a => k a
    | Raise e => Raise e
    end.

(** ** [datetime]

    [timezone.now()] and the values loaded from a [DateTimeField] are
    timezone-aware datetimes in UTC.  Such a datetime is represented by the
    number of microseconds elapsed since 0001-01-01T00:00:00+00:00, the
    first instant a Python [datetime] can hold; the calendar fields are
    recovered by [ord2ymd], which follows CPython's [_ord2ymd]. *)

Definition datetime : Type := Z.

Definition US_PER_SECOND : Z := 1000000.
Definition US_PER_MINUTE : Z := 60 * US_PER_SECOND.
Definition US_PER_HOUR : Z := 3600 * US_PER_SECOND.
Definition US_PER_DAY : Z := 86400 * US_PER_SECOND.

(** [date.max.toordinal()], the ordinal of 9999-12-31. *)
Definition MAXORDINAL : Z := 3652059.

(** One past [datetime.max]. *)
Definition DATETIME_END : Z := MAXORDINAL * US_PER_DAY.

(** The instants a Python [datetime] can hold. *)
Definition representable (t : datetime) : Prop := 0 <= t < DATETIME_END.

Definition representableb (t : datetime) : bool :=
  (0 <=? t) && (t <? DATETIME_END).

(** A [timedelta], in microseconds. *)
Definition timedelta : Type := Z.

Definition timedelta_days (days : Z) : timedelta := days * US_PER_DAY.

(** [datetime.__add__]: the sum, or [OverflowError] when it leaves the
    range of years 1..9999. *)
Definition datetime_add (t : datetime) (d : timedelta) : result datetime :=
  let r := t + d in
  if representableb r then Ok r else Raise OverflowError.

(** [a < b] on two aware datetimes. *)
Definition datetime_lt (a b : datetime) : bool := a <? b.

(** *** The proleptic Gregorian calendar *)

Definition is_leap (year : Z) : bool :=
  (year mod 4 =? 0) && (negb (year mod 100 =? 0) || (year mod 400 =? 0)).

(** Days before January 1st of [year]; year 1 starts at 0. *)
Definition days_before_year (year : Z) : Z :=
  let y := year - 1 in
  y * 365 + y / 4 - y / 100 + y / 400.

Definition DAYS_IN_MONTH (month : Z) : Z :=
  match month with
  | 1 => 31 | 2 => 28 | 3 => 31 | 4 => 30 | 5 => 31 | 6 => 30
  | 7 => 31 | 8 => 31 | 9 => 30 | 10 => 31 | 11 => 30 | 12 => 31
  | _ => -1
  end.

Definition DAYS_BEFORE_MONTH (month : Z) : Z :=
  match month with
  | 1 => 0 | 2 => 31 | 3 => 59 | 4 => 90 | 5 => 120 | 6 => 151
  | 7 => 181 | 8 => 212 | 9 => 243 | 10 => 273 | 11 => 304 | 12 => 334
  | _ => -1
  end.

Definition days_in_month (year month : Z) : Z :=
  if (month =? 2) && is_leap year then 29 else DAYS_IN_MONTH month.

Definition days_before_month (year month : Z) : Z :=
  DAYS_BEFORE_MONTH month + (if (2 <? month) && is_leap year then 1 else 0).

(** [year, month, day -> ordinal], with 0001-01-01 as day 1. *)
Definition ymd2ord (year month day : Z) : Z :=
  days_before_year year + days_before_month year month + day.

Definition DI400Y : Z := 146097.
Definition DI100Y : Z := 36524.
Definition DI4Y : Z := 1461.

(** The month and day of day [n] (from 0) of a year: the estimate
    [(n + 50) >> 5] is exact or one too large. *)
Definition month_day (n : Z) (leapyear : bool) : Z * Z :=
  let month := Z.shiftr (n + 50) 5 in
  let preceding :=
    DAYS_BEFORE_MONTH month + (if (2 <? month) && leapyear then 1 else 0) in
  if n <? preceding
  then
    let month := month - 1 in
    let preceding :=
      preceding
      - (DAYS_IN_MONTH month + (if (month =? 2) && leapyear then 1 else 0)) in
    (month, n - preceding + 1)
  else (month, n - preceding + 1).

(** [ordinal -> (year, month, day)]. *)
Definition ord2ymd (ordinal : Z) : Z * Z * Z :=
  let n := ordinal - 1 in
  let n400 := n / DI400Y in
  let n := n mod DI400Y in
  let year := n400 * 400 + 1 in
  let n100 := n / DI100Y in
  let n := n mod DI100Y in
  let n4 := n / DI4Y in
  let n := n mod DI4Y in
  let n1 := n / 365 in
  let n := n mod 365 in
  let year := year + n100 * 100 + n4 * 4 + n1 in
  if (n1 =? 4) || (n100 =? 4) then (year - 1, 12, 31)
  else
    let leapyear := (n1 =? 3) && (negb (n4 =? 24) || (n100 =? 3)) in
    let '(month, day) := month_day n leapyear in
    (year, month, day).

(** The calendar and clock fields of an instant. *)
Record fields : Type := mkFields {
  f_year : Z; f_month : Z; f_day : Z;
  f_hour : Z; f_minute : Z; f_second : Z; f_microsecond : Z
}.

Definition fields_of (t : datetime) : fields :=
  let '(y, m, d) := ord2ymd (t / US_PER_DAY + 1) in
  let r := t mod US_PER_DAY in
  {| f_year := y; f_month := m; f_day := d;
     f_hour := r / US_PER_HOUR;
     f_minute := r mod US_PER_HOUR / US_PER_MINUTE;
     f_second := r mod US_PER_MINUTE / US_PER_SECOND;
     f_microsecond := r mod US_PER_SECOND |}.

Definition of_fields (f : fields) : datetime :=
  (ymd2ord (f_year f) (f_month f) (f_day f) - 1) * US_PER_DAY
  + f_hour f * US_PER_HOUR + f_minute f * US_PER_MINUTE
  + f_second f * US_PER_SECOND + f_microsecond f.

(** *** Decimal rendering *)

Definition digit_char (d : Z) : ascii := ascii_of_N (48 + Z.to_N d).

(** ['%0<w>d' % n] for [0 <= n < 10^w]: exactly [w] decimal digits. *)
Fixpoint zero_padded (w : nat) (n : Z) : string :=
  match w with
  | O => EmptyString
  | S w' => String (digit_char (n / 10 ^ Z.of_nat w' mod 10)) (zero_padded w' n)
  end.

(** [datetime.isoformat()] of an aware UTC datetime:
    [YYYY-MM-DDTHH:MM:SS+00:00], with [.ffffff] after the seconds when the
    microsecond field is not zero. *)
Definition isoformat (t : datetime) : string :=
  let f := fields_of t in
  zero_padded 4 (f_year f) +:+ "-" +:+ zero_padded 2 (f_month f) +:+ "-"
  +:+ zero_padded 2 (f_day f) +:+ "T"
  +:+ zero_padded 2 (f_hour f) +:+ ":" +:+ zero_padded 2 (f_minute f) +:+ ":"
  +:+ zero_padded 2 (f_second f)
  +:+ (if f_microsecond f =? 0 then "" else "." +:+ zero_padded 6 (f_microsecond f))
  +:+ "+00:00".

(** *** Reading an ISO 8601 string back

    The instant a string of the shape produced by [isoformat] denotes. *)

Definition digit_value (c : ascii) : option Z :=
  let n := Z.of_N (N_of_ascii c) in
  if (48 <=? n) && (n <=? 57) then Some (n - 48) else None.

(** Read exactly [w] decimal digits. *)
Fixpoint read_digits (w : nat) (acc : Z) (s : string) : option (Z * string) :=
  match w with
  | O => Some (acc, s)
  | S w' =>
      match s with
      | String c s' =>
          match digit_value c with
          | Some d => read_digits w' (10 * acc + d) s'
          | None => None
          end
      | EmptyString => None
      end
  end.

Definition expect (c : ascii) (s : string) : option string :=
  match s with
  | String c' s' => if Ascii.eqb c c' then Some s' else None
  | EmptyString => None
  end.

Definition read_fraction (s : string) : option (Z * string) :=
  match s with
  | String "."%char s' => read_digits 6 0 s'
  | _ => Some (0, s)
  end.

Definition valid_fields (f : fields) : bool :=
  (1 <=? f_year f) && (f_year f <=? 9999)
  && (1 <=? f_month f) && (f_month f <=? 12)
  && (1 <=? f_day f) && (f_day f <=? days_in_month (f_year f) (f_month f))
  && (f_hour f <? 24) && (f_minute f <? 60) && (f_second f <? 60).

Definition instant_of_iso8601 (s : string) : option datetime :=
  '(y, s) ← read_digits 4 0 s;
  s ← expect "-" s;
  '(m, s) ← read_digits 2 0 s;
  s ← expect "-" s;
  '(d, s) ← read_digits 2 0 s;
  s ← expect "T" s;
  '(hh, s) ← read_digits 2 0 s;
  s ← expect ":" s;
  '(mm, s) ← read_digits 2 0 s;
  s ← expect ":" s;
  '(ss, s) ← read_digits 2 0 s;
  '(us, s) ← read_fraction s;
  let f := mkFields y m d hh mm ss us in
  if String.eqb s "+00:00" && valid_fields f then Some (of_fields f) else None.

(** The instant [n] calendar years after [t]: same month, day and time of
    day in year [year + n]; February 29th falls back to February 28th when
    the target year is not a leap year. *)
Definition plus_calendar_years (t : datetime) (n : Z) : datetime :=
  let f := fields_of t in
  let y := f_year f + n in
  let d := Z.min (f_day f) (days_in_month y (f_month f)) in
  of_fields (mkFields y (f_month f) d
               (f_hour f) (f_minute f) (f_second f) (f_microsecond f)).

(** ** Hexadecimal rendering and the random source *)

Definition HEXDIGITS : string := "0123456789abcdef".

Definition hex_digit (n : N) : ascii :=
  match String.get (N.to_nat n) HEXDIGITS with
  | Some c => c
  | None => "0"%char
  end.

Fixpoint string_mem (c : ascii) (s : string) : bool :=
  match s with
  | EmptyString => false
  | String c' s' => Ascii.eqb c c' || string_mem c s'
  end.

Definition is_hex_char (c : ascii) : bool := string_mem c HEXDIGITS.

Fixpoint string_forall (p : ascii -> bool) (s : string) : bool :=
  match s with
  | EmptyString => true
  | String c s' => p c && string_forall p s'
  end.

(** [bytes.hex()]: two lower-case hexadecimal digits per byte, the high
    nibble first. *)
Fixpoint hexlify (bs : list Byte.byte) : string :=
  match bs with
  | [] => EmptyString
  | b :: bs' =>
      String (hex_digit (N.shiftr (Byte.to_N b) 4))
        (String (hex_digit (N.land (Byte.to_N b) 15)) (hexlify bs'))
  end.

(** ['%0<w>x' % n] for [n < 16^w]. *)
Fixpoint hex_padded (w : nat) (n : N) : string :=
  match w with
  | O => EmptyString
  | S w' =>
      String (hex_digit (N.land (N.shiftr n (4 * N.of_nat w')) 15)) (hex_padded w' n)
  end.

(** The operating system's random source ([os.urandom]), as the stream of
    bytes it will deliver. *)
Definition entropy : Type := nat -> Byte.byte.

(** [os.urandom(n)]: the next [n] bytes, and the stream that follows. *)
Definition urandom (n : nat) (e : entropy) : list Byte.byte * entropy :=
  (map e (seq 0 n), fun i => e (n + i)%nat).

(** [secrets.token_hex(nbytes)]. *)
Definition token_hex (nbytes : nat) (e : entropy) : string * entropy :=
  let '(bs, e') := urandom nbytes e in (hexlify bs, e').

(** [generate_secret_token()]. *)
Definition generate_secret_token (e : entropy) : string * entropy :=
  token_hex 16 e.

(** ** UUIDs *)

(** A UUID is its 128-bit integer ([UUID.int]). *)
Definition UUID : Type := N.

(** [int.from_bytes(bs, 'big')]. *)
Definition int_from_bytes (bs : list Byte.byte) : N :=
  fold_left (fun acc b => N.lor (N.shiftl acc 8) (Byte.to_N b)) bs 0%N.

(** [x & ~mask] on naturals. *)
Definition clear_bits (x mask : N) : N := N.ldiff x mask.

(** [uuid.uuid4()]: 16 random bytes with the RFC 4122 variant and the
    version number 4 written over their bits. *)
Definition uuid4 (e : entropy) : UUID * entropy :=
  let '(bs, e') := urandom 16 e in
  let i := int_from_bytes bs in
  let i := clear_bits i (N.shiftl 0xc000 48) in
  let i := N.lor i (N.shiftl 0x8000 48) in
  let i := clear_bits i (N.shiftl 0xf000 64) in
  let i := N.lor i (N.shiftl 4 76) in
  (i, e').

(** [str(u)]: 32 hexadecimal digits grouped 8-4-4-4-12. *)
Definition str_uuid (u : UUID) : string :=
  let h := hex_padded 32 u in
  substring 0 8 h +:+ "-" +:+ substring 8 4 h +:+ "-" +:+ substring 12 4 h
  +:+ "-" +:+ substring 16 4 h +:+ "-" +:+ substring 20 12 h.

(** [str(n)] of an integer. *)
Definition str_int (n : Z) : string := NilZero.string_of_int (Z.to_int n).

(** ** Python values seen through attribute access *)

(** A row of [settings.AUTH_USER_MODEL]. *)
Record User : Type := mkUser {
  user_id : Z;
  username : string
}.

Inductive pyval : Type :=
| PNone
| PStr (s : string)
| PInt (n : Z)
| PUuid (u : UUID)
| PDatetime (t : datetime)
| PUser (u : User).

Definition of_nullable {A : Type} (inj : A -> pyval) (o : option A) : pyval :=
  match o with
  | Some a => inj a
  | None => PNone
  end.

(** [getattr(v, name)] on a value reached from a record. *)
Definition pyval_getattr (v : pyval) (name : string) : result pyval :=
  match v with
  | PUser u =>
      if String.eqb name "id" then Ok (PInt (user_id u))
      else if String.eqb name "pk" then Ok (PInt (user_id u))
      else if String.eqb name "username" then Ok (PStr (username u))
      else Raise AttributeError
  | _ => Raise AttributeError
  end.

(** [str(v)], as an f-string renders a value. *)
Definition str_pyval (v : pyval) : string :=
  match v with
  | PNone => "None"
  | PStr s => s
  | PInt n => str_int n
  | PUuid u => str_uuid u
  | PDatetime t => isoformat t
  | PUser u => username u
  end.

(** [s[-n:]]: the last [n] characters, all of [s] when it is shorter. *)
Definition slice_last (n : nat) (s : string) : string :=
  substring (String.length s - n) n s.

(** ** The ABID declaration of a record type

    What a subclass of [ABIDModel] sets in its class body: the prefix and
    the four source specifiers.  [getattr] is attribute lookup on an
    instance and [pk] its primary key. *)
Class ABIDModel (T : Type) : Type := {
  abid_prefix : string;
  abid_ts_src : string;
  abid_uri_src : string;
  abid_subtype_src : string;
  abid_rand_src : string;
  getattr : T -> string -> result pyval;
  pk : T -> UUID
}.

(** ** [class APIToken(ABIDModel)] *)
Module APIToken.

(** A row of the table; a column declared without [null=True] always
    holds a value. *)
Record t : Type := mk {
  id : UUID;                   (* UUIDField(primary_key=True, default=uuid.uuid4) *)
  uuid : option UUID;          (* UUIDField(blank=True, null=True, unique=True) *)
  abid : string;               (* ABIDField(prefix=abid_prefix) *)
  created_by : User;           (* ForeignKey(AUTH_USER_MODEL, on_delete=CASCADE) *)
  token : string;              (* CharField(max_length=32, default=generate_secret_token, unique=True) *)
  created : datetime;          (* DateTimeField(auto_now_add=True) *)
  expires : option datetime    (* DateTimeField(null=True, blank=True) *)
}.

Definition abid_prefix : string := "apt_".
Definition abid_ts_src : string := "self.created".
Definition abid_uri_src : string := "self.token".
Definition abid_subtype_src : string := "self.created_by_id".
Definition abid_rand_src : string := "self.id".

(** The primary key is the field declared with [primary_key=True]. *)
Definition pk (self : t) : UUID := id self.

(** The column a [ForeignKey] named [created_by] adds. *)
Definition created_by_id (self : t) : Z := user_id (created_by self).

(** Attribute lookup on an instance: the fields declared in the class
    body, [pk], and [<fk>_id] for the foreign key.  The class declares no
    attribute named [user]. *)
Definition getattr (self : t) (name : string) : result pyval :=
  if String.eqb name "id" then Ok (PUuid (id self))
  else if String.eqb name "pk" then Ok (PUuid (pk self))
  else if String.eqb name "uuid" then Ok (of_nullable PUuid (uuid self))
  else if String.eqb name "abid" then Ok (PStr (abid self))
  else if String.eqb name "created_by" then Ok (PUser (created_by self))
  else if String.eqb name "created_by_id" then Ok (PInt (created_by_id self))
  else if String.eqb name "token" then Ok (PStr (token self))
  else if String.eqb name "created" then Ok (PDatetime (created self))
  else if String.eqb name "expires" then Ok (of_nullable PDatetime (expires self))
  else Raise AttributeError.

Definition __str__ (self : t) : string := token self.

(** [f'<APIToken user={self.user.username} token=************{self.token[-4:]}>'] *)
Definition __repr__ (self : t) : result string :=
  user ← getattr self "user";
  name ← pyval_getattr user "username";
  Ok ("<APIToken user=" +:+ str_pyval name +:+ " token=************"
      +:+ slice_last 4 (token self) +:+ ">").

(** [expires_as_iso8601], with [now] the value [timezone.now()] returns.
    A datetime is always truthy, so [self.expires or d] is [self.expires]
    unless it is [None]. *)
Definition expires_as_iso8601 (self : t) (now : datetime) : result string :=
  expiry_date ←
    match expires self with
    | Some e => Ok e
    | None => datetime_add now (timedelta_days (365 * 100))
    end;
  Ok (isoformat expiry_date).

(** [is_valid(for_date=None)], with [now] the value [timezone.now()]
    returns. *)
Definition is_valid (self : t) (for_date : option datetime) (now : datetime) : bool :=
  let for_date := match for_date with Some d => d | None => now end in
  match expires self with
  | Some e => if datetime_lt e for_date then false else true
  | None => true
  end.

Section Json.
(** [str(self.ABID)]: the [ABID] property is inherited from [ABIDModel],
    whose code lies outside this module. *)
Variable str_ABID : t -> string.

(** [__json__()]: the dict literal, its values evaluated in order. *)
Definition __json__ (self : t) (now : datetime) : result (gmap string string) :=
  let v_id := str_uuid (pk self) in
  let v_abid := str_ABID self in
  let v_created_by_id := str_int (created_by_id self) in
  let v_token := token self in
  let v_created := isoformat (created self) in
  v_expires ← expires_as_iso8601 self now;
  Ok (<["expires" := v_expires]>
      (<["created" := v_created]>
      (<["token" := v_token]>
      (<["created_by_id" := v_created_by_id]>
      (<["abid" := v_abid]>
      (<["id" := v_id]>
      (<["TYPE" := "APIToken"]> ∅))))))).
End Json.

End APIToken.

#[global] Instance APIToken_ABIDModel : ABIDModel APIToken.t := {|
  abid_prefix := APIToken.abid_prefix;
  abid_ts_src := APIToken.abid_ts_src;
  abid_uri_src := APIToken.abid_uri_src;
  abid_subtype_src := APIToken.abid_subtype_src;
  abid_rand_src := APIToken.abid_rand_src;
  getattr := APIToken.getattr;
  pk := APIToken.pk
|}.

(** ** [class OutboundWebhook(ABIDModel, WebhookBase)] *)
Module OutboundWebhook.

(** The fields declared in the class body, and those of [WebhookBase]
    that this module names: [name], [signal], [ref], [endpoint] and the
    [created] timestamp. *)
Record t : Type := mk {
  id : option UUID;            (* UUIDField(blank=True, null=True, unique=True) *)
  uuid : UUID;                 (* UUIDField(primary_key=True, default=uuid.uuid4) *)
  abid : string;               (* ABIDField(prefix=abid_prefix) *)
  name : string;
  signal : string;
  ref : string;
  endpoint : string;
  created : datetime
}.

Definition abid_prefix : string := "whk_".
Definition abid_ts_src : string := "self.created".
Definition abid_uri_src : string := "self.endpoint".
Definition abid_subtype_src : string := "self.ref".
Definition abid_rand_src : string := "self.id".

Definition pk (self : t) : UUID := uuid self.

Definition getattr (self : t) (attr : string) : result pyval :=
  if String.eqb attr "id" then Ok (of_nullable PUuid (id self))
  else if String.eqb attr "pk" then Ok (PUuid (pk self))
  else if String.eqb attr "uuid" then Ok (PUuid (uuid self))
  else if String.eqb attr "abid" then Ok (PStr (abid self))
  else if String.eqb attr "name" then Ok (PStr (name self))
  else if String.eqb attr "signal" then Ok (PStr (signal self))
  else if String.eqb attr "ref" then Ok (PStr (ref self))
  else if String.eqb attr "endpoint" then Ok (PStr (endpoint self))
  else if String.eqb attr "created" then Ok (PDatetime (created self))
  else Raise AttributeError.

End OutboundWebhook.

#[global] Instance OutboundWebhook_ABIDModel : ABIDModel OutboundWebhook.t := {|
  abid_prefix := OutboundWebhook.abid_prefix;
  abid_ts_src := OutboundWebhook.abid_ts_src;
  abid_uri_src := OutboundWebhook.abid_uri_src;
  abid_subtype_src := OutboundWebhook.abid_subtype_src;
  abid_rand_src := OutboundWebhook.abid_rand_src;
  getattr := OutboundWebhook.getattr;
  pk := OutboundWebhook.pk
|}.

(** ** Resolving a source specifier *)

(** The segments of a dotted path. *)
Fixpoint split_dots (cur : string) (s : string) : list string :=
  match s with
  | EmptyString => [String.rev cur]
  | String c s' =>
      if Ascii.eqb c "." then String.rev cur :: split_dots EmptyString s'
      else split_dots (String c cur) s'
  end.

(** A segment that is absent or null does not resolve. *)
Definition not_null (r : result pyval) : result pyval :=
  match r with
  | Ok PNone => Raise ResolutionError
  | Ok v => Ok v
  | Raise _ => Raise ResolutionError
  end.

(** Modelled from the spec: the attribute path resolver of [abid_utils],
    whose code lies outside this module.  A specifier is a dotted attribute
    path rooted at the record ([self.created]); resolving it returns the
    value found by traversing the path and fails with [ResolutionError]
    when a segment is absent or null. *)
Definition resolve {T : Type} `{ABIDModel T} (self : T) (src : string) : result pyval :=
  match split_dots EmptyString src with
  | "self"%string :: first :: rest =>
      fold_left (fun acc seg => v ← acc; not_null (pyval_getattr v seg))
        rest (not_null (getattr self first))
  | _ => Raise ResolutionError
  end.

(** Modelled from the spec: the four values the identifier of a record is
    computed from, each resolved from the specifier its type declares. *)
Definition ts_value {T : Type} `{ABIDModel T} (self : T) : result pyval :=
  resolve self abid_ts_src.
Definition uri_value {T : Type} `{ABIDModel T} (self : T) : result pyval :=
  resolve self abid_uri_src.
Definition subtype_value {T : Type} `{ABIDModel T} (self : T) : result pyval :=
  resolve self abid_subtype_src.
Definition rand_value {T : Type} `{ABIDModel T} (self : T) : result pyval :=
  resolve self abid_rand_src.

(** ** The table of credentials

    What [Model.save()] and [objects.create()] do to the rows of
    [APIToken], as far as the field declarations of this module decide it:
    defaults fill the fields left out, [auto_now_add] stamps [created] on
    insertion, and the primary key and the [unique=True] columns reject a
    value another row holds.  [max_length] is not checked by [save()]. *)
Module Credentials.

Definition table : Type := list APIToken.t.

Definition pk_in (tbl : table) (k : UUID) : bool :=
  existsb (fun r => N.eqb (APIToken.id r) k) tbl.

(** Two values of the nullable unique column [uuid] collide only when
    both are set. *)
Definition uuid_clash (a b : option UUID) : bool :=
  match a, b with
  | Some x, Some y => N.eqb x y
  | _, _ => false
  end.

(** Another row already holds one of [r]'s unique values. *)
Definition violates_unique (tbl : table) (r : APIToken.t) : bool :=
  existsb
    (fun r' =>
       negb (N.eqb (APIToken.id r') (APIToken.id r))
       && (String.eqb (APIToken.token r') (APIToken.token r)
           || uuid_clash (APIToken.uuid r') (APIToken.uuid r)))
    tbl.

(** The rows whose primary key is not [k]. *)
Definition others (k : UUID) (tbl : table) : table :=
  List.filter (fun r' => negb (N.eqb (APIToken.id r') k)) tbl.

(** [auto_now_add]: an inserted row is stamped with the current time. *)
Definition with_created (r : APIToken.t) (now : datetime) : APIToken.t :=
  APIToken.mk (APIToken.id r) (APIToken.uuid r) (APIToken.abid r)
    (APIToken.created_by r) (APIToken.token r) now (APIToken.expires r).

(** [r.save()]: update the row with [r]'s primary key, insert [r] when
    there is none. *)
Definition save (tbl : table) (r : APIToken.t) (now : datetime) : result table :=
  let r := if pk_in tbl (APIToken.id r) then r else with_created r now in
  if violates_unique tbl r then Raise IntegrityError
  else Ok (r :: others (APIToken.id r) tbl).

(** [r.delete()]. *)
Definition delete (tbl : table) (k : UUID) : table := others k tbl.

(** The keyword arguments of [APIToken(...)]; a field with a default may
    be left out. *)
Record kwargs : Type := mkKwargs {
  kw_id : option UUID;
  kw_uuid : option UUID;
  kw_abid : string;
  kw_created_by : User;
  kw_token : option string;
  kw_expires : option datetime
}.

(** [APIToken] called with the keyword arguments [kw]: a field left out
    takes its default, and the defaults are drawn in field order.
    [created] is the insertion time ([auto_now_add]). *)
Definition init (kw : kwargs) (now : datetime) (e : entropy) : APIToken.t * entropy :=
  let '(i, e) := match kw_id kw with Some i => (i, e) | None => uuid4 e end in
  let '(tok, e) :=
    match kw_token kw with Some s => (s, e) | None => generate_secret_token e end in
  (APIToken.mk i (kw_uuid kw) (kw_abid kw) (kw_created_by kw) tok now (kw_expires kw), e).

(** [APIToken.objects.create] with [kw]: build the instance and insert it. *)
Definition create (tbl : table) (kw : kwargs) (now : datetime) (e : entropy)
  : result (APIToken.t * table) * entropy :=
  let '(r, e') := init kw now e in
  (if pk_in tbl (APIToken.id r) || violates_unique tbl r
   then Raise IntegrityError
   else Ok (r, r :: tbl),
   e').

(** The tables the operations above can produce. *)
Inductive reachable : table -> Prop :=
| reach_empty : reachable []
| reach_create tbl kw now e r tbl' :
    reachable tbl -> fst (create tbl kw now e) = Ok (r, tbl') -> reachable tbl'
| reach_save tbl r now tbl' :
    reachable tbl -> save tbl r now = Ok tbl' -> reachable tbl'
| reach_delete tbl k :
    reachable tbl -> reachable (delete tbl k).

(** No two rows share a primary key, and no two rows share a token. *)
Definition distinct_keys (tbl : table) : Prop :=
  List.NoDup (map APIToken.id tbl) /\ List.NoDup (map APIToken.token tbl).

End Credentials.

(** ** Checking a property on a range of integers *)

(** [p] holds on the [n] integers from [z] on. *)
Fixpoint forall_from (n : nat) (z : Z) (p : Z -> bool) : bool :=
  match n with
  | O => true
  | S n' => p z && forall_from n' (z + 1) p
  end.

(** What [month_day] must return for day [n] of a year. *)
Definition month_day_ok (leapyear : bool) (n : Z) : bool :=
  let '(m, d) := month_day n leapyear in
  (1 <=? m) && (m <=? 12) && (1 <=? d)
  && (d <=? (if (m =? 2) && leapyear then 29 else DAYS_IN_MONTH m))
  && (DAYS_BEFORE_MONTH m + (if (2 <? m) && leapyear then 1 else 0) + d =? n + 1).

(** ** Sample records *)

Definition admin : User := mkUser 1 "admin".

(** 2024-01-01T00:00:00+00:00. *)
Definition new_year_2024 : datetime := 63839664000000000.

Definition sample_token : APIToken.t :=
  APIToken.mk 0x9f8e7d6c5b4a4f3e8d2c1b0a99887766%N None "apt_01hk"
    admin "0123456789abcdef0123456789abcdef" new_year_2024 None.

Definition with_expires (c : APIToken.t) (e : option datetime) : APIToken.t :=
  APIToken.mk (APIToken.id c) (APIToken.uuid c) (APIToken.abid c)
    (APIToken.created_by c) (APIToken.token c) (APIToken.created c) e.

(** A webhook registered without a value for its nullable [id] column. *)
Definition sample_webhook : OutboundWebhook.t :=
  OutboundWebhook.mk None 0x3c2b1a0f9e8d4c7b8a69584736251403%N "whk_01hk"
    "Notify of new snapshots" "CREATE" "core.models.Snapshot"
    "https://someapp.example.com/webhook/some-webhook-receiver" new_year_2024.

(** A random source, for running the code on. *)
Definition sample_entropy : entropy :=
  fun i => match Byte.of_nat ((i * 37 + 11) mod 256) with
           | Some b => b
           | None => Byte.x00
           end.

(** Keyword arguments that leave [id] and [token] to their defaults. *)
Definition default_kwargs : Credentials.kwargs :=
  Credentials.mkKwargs None None "apt_01hk" admin None None.

(** Keyword arguments that supply a three-character token. *)
Definition short_kwargs : Credentials.kwargs :=
  Credentials.mkKwargs None None "apt_01hk" admin (Some "abc"%string) None.

(** The table holding one credential created with the defaults. *)
Definition sample_table : Credentials.table :=
  match fst (Credentials.create [] default_kwargs new_year_2024 sample_entropy) with
  | Ok (_, tbl) => tbl
  | Raise _ => []
  end.

(** ** Reading hexadecimal back ([bytes.fromhex]) *)

(** The position of a character in a string. *)
Fixpoint string_index (c : ascii) (s : string) : option N :=
  match s with
  | EmptyString => None
  | String c' s' =>
      if Ascii.eqb c c' then Some 0%N else N.succ <$> string_index c s'
  end.

(** The byte two lower-case hexadecimal digits denote. *)
Definition byte_of_hex (hi lo : ascii) : option Byte.byte :=
  h ← string_index hi HEXDIGITS;
  l ← string_index lo HEXDIGITS;
  Byte.of_N (16 * h + l).

Fixpoint unhexlify (s : string) : option (list Byte.byte) :=
  match s with
  | EmptyString => Some []
  | String hi (String lo s') =>
      b ← byte_of_hex hi lo;
      bs ← unhexlify s';
      Some (b :: bs)
  | String _ EmptyString => None
  end.

(** ** The help texts of [WebhookBase]

    The body of [OutboundWebhook] assigns a new [help_text] to four fields
    of [WebhookBase], each reached by [WebhookBase._meta.get_field(name)].
    The fields of [WebhookBase] are kept by name with their [help_text];
    [get_field] raises [FieldDoesNotExist] for a name that is not a field,
    and the assignments made before it stay made. *)
Module WebhookBaseMeta.

Inductive outcome : Type :=
| Done
| FieldDoesNotExist (name : string).

(** [WebhookBase._meta.get_field(name).help_text = text]. *)
Definition set_help_text (name text : string) (meta : gmap string string)
  : gmap string string * outcome :=
  match meta !! name with
  | Some _ => (<[name := text]> meta, Done)
  | None => (meta, FieldDoesNotExist name)
  end.

(** Statements run in order; an exception ends the run. *)
Fixpoint run (stmts : list (string * string)) (meta : gmap string string)
  : gmap string string * outcome :=
  match stmts with
  | [] => (meta, Done)
  | (name, text) :: rest =>
      match set_help_text name text meta with
      | (meta', Done) => run rest meta'
      | stopped => stopped
      end
  end.

Definition NAME_HELP : string :=
  "Give your webhook a descriptive name (e.g. Notify ACME Slack channel of any new ArchiveResults).".
Definition SIGNAL_HELP : string :=
  "The type of event the webhook should fire for (e.g. Create, Update, Delete).".
Definition REF_HELP : string :=
  "Dot import notation of the model the webhook should fire for (e.g. core.models.Snapshot or core.models.ArchiveResult).".
Definition ENDPOINT_HELP : string :=
  "External URL to POST the webhook notification to (e.g. https://someapp.example.com/webhook/some-webhook-receiver).".

(** The four assignments of the class body, in source order. *)
Definition help_text_assignments : list (string * string) :=
  [ ("name", NAME_HELP); ("signal", SIGNAL_HELP); ("ref", REF_HELP);
    ("endpoint", ENDPOINT_HELP) ]%string.

Definition patch_help_texts (meta : gmap string string)
  : gmap string string * outcome :=
  run help_text_assignments meta.

End WebhookBaseMeta.

(** Fields of a webhook base class, with help texts of their own. *)
Definition sample_webhook_meta : gmap string string :=
  <["name" := "Webhook name."]>
  (<["signal" := "Signal the webhook fires for."]>
  (<["ref" := "Reference to the model."]>
  (<["endpoint" := "Target endpoint."]>
  (<["headers" := "Headers to send with the webhook."]> ∅))))%string.


(** * Lemmas *)

(** ** Arithmetic of the calendar *)

(** [forall_from] checks every integer of its range. *)
Lemma forall_from_spec (n : nat) (p : Z -> bool) :
  forall z, forall_from n z p = true ->
  forall x, z <= x < z + Z.of_nat n -> p x = true.
Proof.
  induction n as [|n IH]; simpl; intros z Hall x Hx; [lia|].
  apply andb_true_iff in Hall as [Hz Hrest].
  destruct (Z.eq_dec x z) as [->|Hne]; [exact Hz|].
  apply (IH (z + 1)); [exact Hrest | lia].
Qed.

(** [month_day] is right on each of the 365 first days of a year, leap
    or not. *)
Lemma month_day_checked leapyear :
  forall_from 365 0 (month_day_ok leapyear) = true.
Proof. destruct leapyear; vm_compute; reflexivity. Qed.

(** The month found is the one day [n] falls in, and the day counts from
    the start of that month. *)
Lemma month_day_spec n leapyear :
  0 <= n < 365 ->
  let '(m, d) := month_day n leapyear in
  1 <= m <= 12
  /\ 1 <= d <= (if (m =? 2) && leapyear then 29 else DAYS_IN_MONTH m)
  /\ DAYS_BEFORE_MONTH m + (if (2 <? m) && leapyear then 1 else 0) + d = n + 1.
Proof.
  intros Hn.
  pose proof (forall_from_spec _ _ 0 (month_day_checked leapyear) n ltac:(lia)) as Hok.
  unfold month_day_ok in Hok. destruct (month_day n leapyear) as [m d].
  rewrite !andb_true_iff, !Z.leb_le, Z.eqb_eq in Hok. lia.
Qed.

Ltac split_eqb :=
  repeat match goal with
         | |- context [?x =? ?y] => destruct (Z.eqb_spec x y)
         end.

(** A year written by its position in the 400-, 100- and 4-year cycles. *)
Lemma is_leap_decomposed a b c e :
  0 <= b <= 3 -> 0 <= c <= 24 -> 0 <= e <= 3 ->
  is_leap (a * 400 + 1 + b * 100 + c * 4 + e)
  = (e =? 3) && (negb (c =? 24) || (b =? 3)).
Proof.
  intros Hb Hc He. unfold is_leap.
  split_eqb; cbn [andb orb negb]; try reflexivity;
    exfalso; Z.div_mod_to_equations; lia.
Qed.

Lemma days_before_year_decomposed a b c e :
  0 <= b <= 3 -> 0 <= c <= 24 -> 0 <= e <= 3 ->
  days_before_year (a * 400 + 1 + b * 100 + c * 4 + e)
  = a * 146097 + b * 36524 + c * 1461 + e * 365.
Proof.
  intros Hb Hc He. unfold days_before_year. cbv zeta.
  Z.div_mod_to_equations. lia.
Qed.

(** [ymd2ord] undoes [ord2ymd], which returns a date of the calendar. *)
Lemma ord2ymd_ymd2ord n :
  1 <= n <= MAXORDINAL ->
  let '(y, m, d) := ord2ymd n in
  ymd2ord y m d = n /\ 1 <= y <= 9999 /\ 1 <= m <= 12
  /\ 1 <= d <= days_in_month y m.
Proof.
  intros Hn. unfold MAXORDINAL in Hn. unfold ord2ymd, DI400Y, DI100Y, DI4Y.
  pose proof (Z.div_mod (n - 1) 146097 ltac:(lia)) as E0.
  pose proof (Z.mod_pos_bound (n - 1) 146097 ltac:(lia)) as B0.
  set (n400 := (n - 1) / 146097) in *. set (r0 := (n - 1) mod 146097) in *.
  pose proof (Z.div_mod r0 36524 ltac:(lia)) as E1.
  pose proof (Z.mod_pos_bound r0 36524 ltac:(lia)) as B1.
  set (n100 := r0 / 36524) in *. set (r1 := r0 mod 36524) in *.
  pose proof (Z.div_mod r1 1461 ltac:(lia)) as E2.
  pose proof (Z.mod_pos_bound r1 1461 ltac:(lia)) as B2.
  set (n4 := r1 / 1461) in *. set (r2 := r1 mod 1461) in *.
  pose proof (Z.div_mod r2 365 ltac:(lia)) as E3.
  pose proof (Z.mod_pos_bound r2 365 ltac:(lia)) as B3.
  set (n1 := r2 / 365) in *. set (r3 := r2 mod 365) in *.
  clearbody n400 r0 n100 r1 n4 r2 n1 r3. cbv zeta.
  assert (0 <= n400 <= 24 /\ 0 <= n100 <= 4 /\ 0 <= n4 <= 24 /\ 0 <= n1 <= 4)
    as (H400 & H100 & H4 & H1) by lia.
  destruct (Z.eqb_spec n1 4) as [Hn1|Hn1];
    [|destruct (Z.eqb_spec n100 4) as [Hn100|Hn100]]; cbn [orb].
  - (* the last day of a four-year block *)
    replace (n400 * 400 + 1 + n100 * 100 + n4 * 4 + n1 - 1)
      with (n400 * 400 + 1 + n100 * 100 + n4 * 4 + 3) by lia.
    unfold ymd2ord, days_before_month, days_in_month.
    rewrite is_leap_decomposed, days_before_year_decomposed by lia.
    replace (n4 =? 24) with false by (symmetry; apply Z.eqb_neq; lia).
    cbn. lia.
  - (* the last day of a 400-year cycle *)
    replace (n400 * 400 + 1 + n100 * 100 + n4 * 4 + n1 - 1)
      with (n400 * 400 + 1 + 3 * 100 + 24 * 4 + 3) by lia.
    unfold ymd2ord, days_before_month, days_in_month.
    rewrite is_leap_decomposed, days_before_year_decomposed by lia.
    cbn. lia.
  - pose proof (month_day_spec r3
                  ((n1 =? 3) && (negb (n4 =? 24) || (n100 =? 3))) B3) as Hmd.
    destruct (month_day r3 ((n1 =? 3) && (negb (n4 =? 24) || (n100 =? 3))))
      as [m d].
    unfold ymd2ord, days_before_month, days_in_month.
    rewrite is_leap_decomposed, days_before_year_decomposed by lia.
    destruct Hmd as (Hm & Hd & Hsum).
    repeat split; lia.
Qed.

(** ** Fields of an instant *)

(** The time of day is recovered from its four fields. *)
Lemma clock_fields r :
  r / US_PER_HOUR * US_PER_HOUR + r mod US_PER_HOUR / US_PER_MINUTE * US_PER_MINUTE
  + r mod US_PER_MINUTE / US_PER_SECOND * US_PER_SECOND + r mod US_PER_SECOND = r.
Proof.
  unfold US_PER_HOUR, US_PER_MINUTE, US_PER_SECOND.
  Z.div_mod_to_equations. lia.
Qed.

Lemma clock_fields_bounds r :
  0 <= r < US_PER_DAY ->
  0 <= r / US_PER_HOUR < 24
  /\ 0 <= r mod US_PER_HOUR / US_PER_MINUTE < 60
  /\ 0 <= r mod US_PER_MINUTE / US_PER_SECOND < 60
  /\ 0 <= r mod US_PER_SECOND < 1000000.
Proof.
  unfold US_PER_DAY, US_PER_HOUR, US_PER_MINUTE, US_PER_SECOND.
  intros Hr. Z.div_mod_to_equations. lia.
Qed.

(** The fields of a representable instant are those of a valid date and
    time, and [of_fields] maps them back to the instant. *)
Lemma fields_of_spec t :
  representable t ->
  let f := fields_of t in
  of_fields f = t
  /\ 1 <= f_year f <= 9999 /\ 1 <= f_month f <= 12
  /\ 1 <= f_day f <= days_in_month (f_year f) (f_month f)
  /\ 0 <= f_hour f < 24 /\ 0 <= f_minute f < 60 /\ 0 <= f_second f < 60
  /\ 0 <= f_microsecond f < 1000000.
Proof.
  intros [Hlo Hhi]. unfold DATETIME_END in Hhi.
  assert (0 < US_PER_DAY) as HD by (unfold US_PER_DAY, US_PER_SECOND; lia).
  pose proof (Z.div_mod t US_PER_DAY ltac:(lia)) as Hdm.
  pose proof (Z.mod_pos_bound t US_PER_DAY HD) as Hr.
  assert (0 <= t / US_PER_DAY < MAXORDINAL) as Hq.
  { split; [apply Z.div_pos; lia | apply Z.div_lt_upper_bound; lia]. }
  pose proof (ord2ymd_ymd2ord (t / US_PER_DAY + 1) ltac:(lia)) as Hord.
  pose proof (clock_fields (t mod US_PER_DAY)) as Hclock.
  pose proof (clock_fields_bounds (t mod US_PER_DAY) Hr) as Hb.
  unfold fields_of, of_fields.
  destruct (ord2ymd (t / US_PER_DAY + 1)) as [[y m] d].
  cbn [f_year f_month f_day f_hour f_minute f_second f_microsecond].
  destruct Hord as (Hord & Hy & Hm & Hd). rewrite Hord.
  repeat split; try lia.
Qed.

(** ** Reading back what [isoformat] writes *)

Lemma digit_value_char d : 0 <= d <= 9 -> digit_value (digit_char d) = Some d.
Proof.
  intros Hd.
  assert (d = 0 \/ d = 1 \/ d = 2 \/ d = 3 \/ d = 4 \/ d = 5 \/ d = 6
          \/ d = 7 \/ d = 8 \/ d = 9) as Hcases by lia.
  repeat (destruct Hcases as [-> | Hcases]; [reflexivity|]).
  subst d. reflexivity.
Qed.

Lemma append_cons c s r : String c s +:+ r = String c (s +:+ r).
Proof. reflexivity. Qed.

Lemma read_digits_padded w :
  forall n acc rest,
    read_digits w acc (zero_padded w n +:+ rest)
    = Some (acc * 10 ^ Z.of_nat w + n mod 10 ^ Z.of_nat w, rest).
Proof.
  induction w as [|w IH]; intros n acc rest.
  - cbn. rewrite Z.mod_1_r. do 2 f_equal. lia.
  - cbn [zero_padded]. rewrite append_cons. cbn [read_digits].
    rewrite digit_value_char
      by (pose proof (Z.mod_pos_bound (n / 10 ^ Z.of_nat w) 10); lia).
    rewrite IH. do 2 f_equal.
    rewrite Nat2Z.inj_succ, Z.pow_succ_r by lia.
    assert (0 < 10 ^ Z.of_nat w) by (apply Z.pow_pos_nonneg; lia).
    rewrite (Z.mul_comm 10 (10 ^ Z.of_nat w)),
      (Z.rem_mul_r n (10 ^ Z.of_nat w) 10) by lia.
    ring.
Qed.

Lemma read_digits_field w n rest :
  0 <= n < 10 ^ Z.of_nat w ->
  read_digits w 0 (zero_padded w n +:+ rest) = Some (n, rest).
Proof.
  intros Hn. rewrite read_digits_padded, Z.mod_small by exact Hn.
  reflexivity.
Qed.

Lemma expect_literal c rest :
  expect c (String c EmptyString +:+ rest) = Some rest.
Proof.
  change (expect c (String c rest) = Some rest).
  unfold expect. now rewrite Ascii.eqb_refl.
Qed.

Lemma read_fraction_rendered us :
  0 <= us < 1000000 ->
  read_fraction
    ((if us =? 0 then "" else "." +:+ zero_padded 6 us) +:+ "+00:00")
  = Some (us, "+00:00"%string).
Proof.
  intros Hus. destruct (Z.eqb_spec us 0) as [->|Hne].
  - reflexivity.
  - change (read_fraction (("." +:+ zero_padded 6 us) +:+ "+00:00"))
      with (read_digits 6 0 (zero_padded 6 us +:+ "+00:00")).
    apply read_digits_field. cbn; lia.
Qed.

Lemma valid_fields_true f :
  1 <= f_year f <= 9999 -> 1 <= f_month f <= 12 ->
  1 <= f_day f <= days_in_month (f_year f) (f_month f) ->
  f_hour f < 24 -> f_minute f < 60 -> f_second f < 60 ->
  valid_fields f = true.
Proof.
  intros. unfold valid_fields.
  rewrite !andb_true_iff, !Z.leb_le, !Z.ltb_lt. lia.
Qed.

Lemma days_in_month_le y m : days_in_month y m <= 31.
Proof.
  unfold days_in_month, DAYS_IN_MONTH.
  destruct ((m =? 2) && is_leap y); [lia|].
  destruct m as [|p|p]; [lia| |lia].
  do 4 (try destruct p as [p|p|]; try lia).
Qed.

Ltac read_field :=
  rewrite read_digits_field by (cbn; lia); cbn [mbind option_bind].
Ltac read_literal :=
  rewrite expect_literal; cbn [mbind option_bind].

(** The string [isoformat] returns for a representable instant denotes
    that instant. *)
Lemma instant_of_iso8601_isoformat t :
  representable t -> instant_of_iso8601 (isoformat t) = Some t.
Proof.
  intros Ht. pose proof (fields_of_spec t Ht) as Hf. cbv zeta in Hf.
  unfold isoformat, instant_of_iso8601.
  destruct (fields_of t) as [y m d hh mm ss us].
  cbn [f_year f_month f_day f_hour f_minute f_second f_microsecond] in *.
  destruct Hf as (Hof & Hy & Hm & Hd & Hhh & Hmm & Hss & Hus).
  pose proof (days_in_month_le y m) as Hdim.
  read_field. read_literal. read_field. read_literal. read_field.
  read_literal. read_field. read_literal. read_field. read_literal.
  read_field. rewrite read_fraction_rendered by exact Hus.
  cbn [mbind option_bind].
  rewrite valid_fields_true by (cbn; lia).
  rewrite Hof. reflexivity.
Qed.

(** ** Hexadecimal rendering *)

(** Both nibbles of a byte are rendered by a hexadecimal digit. *)
Lemma hex_digit_of_byte (b : Byte.byte) :
  is_hex_char (hex_digit (N.shiftr (Byte.to_N b) 4)) = true
  /\ is_hex_char (hex_digit (N.land (Byte.to_N b) 15)) = true.
Proof. destruct b; split; reflexivity. Qed.

Lemma hexlify_length bs : String.length (hexlify bs) = (2 * length bs)%nat.
Proof. induction bs as [|b bs IH]; cbn [hexlify String.length length]; lia. Qed.

Lemma hexlify_hex bs : string_forall is_hex_char (hexlify bs) = true.
Proof.
  induction bs as [|b bs IH]; [reflexivity|].
  cbn [hexlify string_forall].
  destruct (hex_digit_of_byte b) as [-> ->]. exact IH.
Qed.

Lemma urandom_length n e : length (fst (urandom n e)) = n.
Proof. unfold urandom. cbn [fst]. now rewrite length_map, length_seq. Qed.

(** A generated token: 16 bytes, two hexadecimal digits each. *)
Lemma generate_secret_token_spec e :
  String.length (fst (generate_secret_token e)) = 32%nat
  /\ string_forall is_hex_char (fst (generate_secret_token e)) = true.
Proof.
  unfold generate_secret_token, token_hex.
  pose proof (urandom_length 16 e) as Hlen.
  destruct (urandom 16 e) as [bs e']. cbn [fst] in *.
  split; [rewrite hexlify_length, Hlen; reflexivity | apply hexlify_hex].
Qed.

(** ** The table of credentials *)

Import Credentials.

(** Filtering keeps the keys of a list distinct; distinct keys identify
    the elements. *)
Lemma NoDup_map_filter {A B : Type} (f : A -> B) (p : A -> bool) (l : list A) :
  List.NoDup (map f l) -> List.NoDup (map f (List.filter p l)).
Proof.
  induction l as [|a l IH]; cbn [List.filter map]; intros Hnd; [constructor|].
  apply NoDup_cons_iff in Hnd as [Hnotin Hnd].
  destruct (p a); cbn [map]; [|now apply IH].
  apply NoDup_cons_iff. split; [|now apply IH].
  intros Hin. apply Hnotin.
  apply in_map_iff in Hin as (x & Hx & Hxin).
  apply filter_In in Hxin as [Hxin _].
  apply in_map_iff. eauto.
Qed.

Lemma NoDup_map_inj {A B : Type} (f : A -> B) (l : list A) :
  List.NoDup (map f l) ->
  forall x y, In x l -> In y l -> f x = f y -> x = y.
Proof.
  induction l as [|a l IH]; cbn [map]; intros Hnd x y Hx Hy Hxy; [destruct Hx|].
  apply NoDup_cons_iff in Hnd as [Hnotin Hnd].
  destruct Hx as [<- | Hx], Hy as [<- | Hy]; trivial.
  - exfalso. apply Hnotin. rewrite Hxy. now apply in_map.
  - exfalso. apply Hnotin. rewrite <- Hxy. now apply in_map.
  - now apply IH.
Qed.

(** What passing the two checks of [save] and [create] means. *)
Lemma pk_in_false tbl k :
  pk_in tbl k = false -> ~ In k (map APIToken.id tbl).
Proof.
  unfold pk_in. intros Hex Hin.
  apply in_map_iff in Hin as (r & Hr & Hrin).
  assert (existsb (fun r => (APIToken.id r =? k)%N) tbl = true) as Habs.
  { apply existsb_exists. exists r. split; [exact Hrin|]. now apply N.eqb_eq. }
  congruence.
Qed.

Lemma violates_unique_false tbl r :
  violates_unique tbl r = false ->
  forall r', In r' tbl -> APIToken.id r' <> APIToken.id r ->
             APIToken.token r' <> APIToken.token r.
Proof.
  unfold violates_unique. intros Hex r' Hin Hid Htok.
  assert (existsb
            (fun r' =>
               negb (APIToken.id r' =? APIToken.id r)%N
               && (String.eqb (APIToken.token r') (APIToken.token r)
                   || uuid_clash (APIToken.uuid r') (APIToken.uuid r)))
            tbl = true) as Habs.
  { apply existsb_exists. exists r'. split; [exact Hin|].
    apply andb_true_iff. split.
    - apply negb_true_iff. now apply N.eqb_neq.
    - apply orb_true_iff. left. now apply String.eqb_eq. }
  congruence.
Qed.

Lemma others_spec k tbl r :
  In r (others k tbl) <-> In r tbl /\ APIToken.id r <> k.
Proof.
  unfold others. rewrite filter_In, negb_true_iff, N.eqb_neq. reflexivity.
Qed.

(** Each operation keeps the primary keys and the tokens distinct. *)
Lemma distinct_keys_others k tbl :
  distinct_keys tbl -> distinct_keys (others k tbl).
Proof.
  intros [Hid Htok]. split; unfold others; now apply NoDup_map_filter.
Qed.

Lemma distinct_keys_put tbl r :
  distinct_keys tbl -> violates_unique tbl r = false ->
  distinct_keys (r :: others (APIToken.id r) tbl).
Proof.
  intros Hd Hv. destruct (distinct_keys_others (APIToken.id r) tbl Hd) as [Hid Htok].
  split; cbn [map]; apply NoDup_cons_iff; (split; [|assumption]).
  - intros Hin. apply in_map_iff in Hin as (r' & Heq & Hin).
    apply others_spec in Hin as [_ Hne]. contradiction.
  - intros Hin. apply in_map_iff in Hin as (r' & Heq & Hin).
    apply others_spec in Hin as [Hin Hne].
    exact (violates_unique_false tbl r Hv r' Hin Hne Heq).
Qed.

Lemma distinct_keys_create tbl kw now e r tbl' :
  distinct_keys tbl -> fst (create tbl kw now e) = Ok (r, tbl') ->
  distinct_keys tbl'.
Proof.
  intros [Hid Htok] Hc. unfold create in Hc.
  destruct (init kw now e) as [r0 e0]. cbn [fst] in Hc.
  destruct (pk_in tbl (APIToken.id r0)) eqn:Hpk; cbn [orb] in Hc; [discriminate|].
  destruct (violates_unique tbl r0) eqn:Hv; [discriminate|].
  injection Hc as <- <-.
  pose proof (pk_in_false _ _ Hpk) as Hfresh.
  split; cbn [map]; apply NoDup_cons_iff; (split; [|assumption]).
  - exact Hfresh.
  - intros Hin. apply in_map_iff in Hin as (r' & Heq & Hin).
    refine (violates_unique_false tbl r0 Hv r' Hin _ Heq).
    intros Hsame. apply Hfresh. rewrite <- Hsame. now apply in_map.
Qed.

Lemma distinct_keys_save tbl r now tbl' :
  distinct_keys tbl -> save tbl r now = Ok tbl' -> distinct_keys tbl'.
Proof.
  intros Hd Hs. unfold save in Hs.
  set (r1 := if pk_in tbl (APIToken.id r) then r else with_created r now) in Hs.
  destruct (violates_unique tbl r1) eqn:Hv; [discriminate|].
  injection Hs as <-. now apply distinct_keys_put.
Qed.

(** Hence they are distinct in every table the operations produce. *)
Lemma reachable_distinct_keys tbl : reachable tbl -> distinct_keys tbl.
Proof.
  induction 1 as [|tbl kw now e r tbl' _ IH Hc|tbl r now tbl' _ IH Hs|tbl k _ IH].
  - split; constructor.
  - exact (distinct_keys_create _ _ _ _ _ _ IH Hc).
  - exact (distinct_keys_save _ _ _ _ IH Hs).
  - now apply distinct_keys_others.
Qed.

(** * Theorems *)

(** ** Validity of a credential *)

(** C1: [is_valid] called with the instant [now] returns [False] if and
    only if the credential's expiry is set and strictly earlier than
    [now]; in every other case it returns [True], and in particular it
    returns [True] when no expiry is set, however large [now] is.  The
    clock is not consulted when [for_date] is given. *)
Theorem is_valid_false_iff (c : APIToken.t) (now clock : datetime) :
  (APIToken.is_valid c (Some now) clock = false
   <-> exists e, APIToken.expires c = Some e /\ e < now)
  /\ (APIToken.is_valid c (Some now) clock = true
      <-> ~ exists e, APIToken.expires c = Some e /\ e < now)
  /\ (APIToken.expires c = None -> APIToken.is_valid c (Some now) clock = true).
Proof.
  unfold APIToken.is_valid, datetime_lt.
  destruct (APIToken.expires c) as [e|].
  - destruct (Z.ltb_spec e now) as [Hlt|Hge].
    + split; [|split].
      * split; [intros _; eauto | reflexivity].
      * split; [discriminate | intros H; exfalso; apply H; eauto].
      * discriminate.
    + split; [|split].
      * split; [discriminate | intros (e' & [= <-] & Hlt); lia].
      * split; [intros _ (e' & [= <-] & Hlt); lia | reflexivity].
      * discriminate.
  - split; [|split].
    + split; [discriminate | intros (e' & [=] & _)].
    + split; [intros _ (e' & [=] & _) | reflexivity].
    + reflexivity.
Qed.

(** Without [for_date] the comparison is made against the clock. *)
Lemma is_valid_default_for_date (c : APIToken.t) (clock : datetime) :
  APIToken.is_valid c None clock = APIToken.is_valid c (Some clock) clock.
Proof. reflexivity. Qed.

(** C8: a credential whose expiry is exactly the queried instant is still
    valid at that instant: the comparison [self.expires < for_date] is
    strict. *)
Theorem is_valid_at_expiry (c : APIToken.t) (now clock : datetime) :
  APIToken.expires c = Some now -> APIToken.is_valid c (Some now) clock = true.
Proof.
  intros He. unfold APIToken.is_valid, datetime_lt. rewrite He.
  now rewrite Z.ltb_irrefl.
Qed.

(** The same at a credential that expires on 2024-01-01T00:00:00+00:00,
    queried at that instant. *)
Lemma is_valid_at_expiry_witness :
  APIToken.is_valid (with_expires sample_token (Some new_year_2024))
    (Some new_year_2024) 0 = true.
Proof. apply (is_valid_at_expiry _ new_year_2024 0). reflexivity. Defined.

(** ** The displayed expiry *)

(** C2, as stated, fails: for the sample credential, which has no expiry,
    [expires_as_iso8601] evaluated at 2024-01-01T00:00:00+00:00 returns
    2123-12-08T00:00:00+00:00, that is 36500 days later, while 100
    calendar years later is 2124-01-01T00:00:00+00:00; the two instants
    are 24 days apart, not within one second. *)
Lemma expires_display_counterexample :
  exists s t,
    APIToken.expires_as_iso8601 sample_token new_year_2024 = Ok s
    /\ s = "2123-12-08T00:00:00+00:00"%string
    /\ instant_of_iso8601 s = Some t
    /\ isoformat (plus_calendar_years new_year_2024 100)
       = "2124-01-01T00:00:00+00:00"%string
    /\ ~ Z.abs (t - plus_calendar_years new_year_2024 100) <= US_PER_SECOND.
Proof.
  exists "2123-12-08T00:00:00+00:00"%string, 66993264000000000.
  repeat split; try (vm_compute; reflexivity).
  vm_compute. intros H. apply H. reflexivity.
Qed.

(** C2, amended: for a credential with no expiry, [expires_as_iso8601]
    evaluated at the instant [T] returns an ISO 8601 string whose instant
    lies within one second of [T] plus 36500 days (one hundred years of
    365 days), provided that instant is one a [datetime] can hold; for a
    credential with an expiry it returns exactly the stored expiry
    rendered by [isoformat]. *)
Theorem expires_display (c : APIToken.t) (T : datetime) :
  (APIToken.expires c = None ->
   representable (T + timedelta_days (365 * 100))) ->
  (APIToken.expires c = None ->
   exists s t,
     APIToken.expires_as_iso8601 c T = Ok s
     /\ instant_of_iso8601 s = Some t
     /\ Z.abs (t - (T + timedelta_days (365 * 100))) <= US_PER_SECOND)
  /\ (forall e, APIToken.expires c = Some e ->
      APIToken.expires_as_iso8601 c T = Ok (isoformat e)).
Proof.
  intros Hclock. split.
  - intros Hnone.
    exists (isoformat (T + timedelta_days (365 * 100))), (T + timedelta_days (365 * 100)).
    unfold APIToken.expires_as_iso8601, datetime_add, representableb.
    rewrite Hnone.
    destruct (Hclock Hnone) as [Hlo Hhi].
    rewrite (proj2 (Z.leb_le _ _) Hlo), (proj2 (Z.ltb_lt _ _) Hhi).
    repeat split.
    + apply instant_of_iso8601_isoformat. split; assumption.
    + rewrite Z.sub_diag. unfold US_PER_SECOND. cbn. lia.
  - intros e He. unfold APIToken.expires_as_iso8601. rewrite He. reflexivity.
Qed.

(** The same at the sample credential and 2024-01-01T00:00:00+00:00. *)
Lemma expires_display_witness :
  (APIToken.expires sample_token = None ->
   exists s t,
     APIToken.expires_as_iso8601 sample_token new_year_2024 = Ok s
     /\ instant_of_iso8601 s = Some t
     /\ Z.abs (t - (new_year_2024 + timedelta_days (365 * 100))) <= US_PER_SECOND)
  /\ (forall e, APIToken.expires sample_token = Some e ->
      APIToken.expires_as_iso8601 sample_token new_year_2024 = Ok (isoformat e)).
Proof.
  apply (expires_display sample_token new_year_2024).
  intros _. unfold representable. vm_compute. split; [discriminate | reflexivity].
Defined.

(** ** Tokens *)

(** C3, as stated, fails: a credential created with the token ["abc"]
    supplied by the caller is stored with that token, three characters
    long, not 32. *)
Lemma stored_token_length_counterexample :
  exists r tbl,
    fst (create [] short_kwargs new_year_2024 sample_entropy) = Ok (r, tbl)
    /\ reachable tbl /\ In r tbl
    /\ APIToken.token r = "abc"%string
    /\ String.length (APIToken.token r) <> 32%nat.
Proof.
  eexists. eexists. split; [reflexivity|]. split; [|split; [|split]].
  - eapply (reach_create [] short_kwargs new_year_2024 sample_entropy).
    + constructor.
    + reflexivity.
  - left. reflexivity.
  - reflexivity.
  - cbn. discriminate.
Qed.

(** The token of a created credential is the one supplied, or else the
    one [generate_secret_token] draws after the default [id]. *)
Lemma create_token tbl kw now e r tbl' :
  fst (create tbl kw now e) = Ok (r, tbl') ->
  In r tbl'
  /\ APIToken.token r
     = match kw_token kw with
       | Some s => s
       | None =>
           fst (generate_secret_token
                  (match kw_id kw with Some _ => e | None => snd (uuid4 e) end))
       end.
Proof.
  unfold create, init. intros Hc.
  destruct (kw_id kw) as [i|].
  - destruct (kw_token kw) as [s|].
    + cbn [fst] in Hc.
      match type of Hc with (if ?b then _ else _) = _ => destruct b end;
        [discriminate|].
      injection Hc as <- <-. split; [now left | reflexivity].
    + destruct (generate_secret_token e) as [tok e1]. cbn [fst] in *.
      match type of Hc with (if ?b then _ else _) = _ => destruct b end;
        [discriminate|].
      injection Hc as <- <-. split; [now left | reflexivity].
  - destruct (uuid4 e) as [i e1]. cbn [snd].
    destruct (kw_token kw) as [s|].
    + cbn [fst] in Hc.
      match type of Hc with (if ?b then _ else _) = _ => destruct b end;
        [discriminate|].
      injection Hc as <- <-. split; [now left | reflexivity].
    + destruct (generate_secret_token e1) as [tok e2]. cbn [fst] in *.
      match type of Hc with (if ?b then _ else _) = _ => destruct b end;
        [discriminate|].
      injection Hc as <- <-. split; [now left | reflexivity].
Qed.

(** C3, amended: every string returned by [generate_secret_token] has
    exactly 32 characters, each a hexadecimal digit (16 random bytes
    rendered as hex); in every table of credentials no two credentials
    share a token; a credential created without a token stores a
    generated one, 32 hexadecimal characters long, while a token supplied
    by the caller is stored as it is given. *)
Theorem token_shape_and_uniqueness (tbl : table) :
  reachable tbl ->
  (forall e,
      String.length (fst (generate_secret_token e)) = 32%nat
      /\ string_forall is_hex_char (fst (generate_secret_token e)) = true)
  /\ (forall r r',
         In r tbl -> In r' tbl -> APIToken.token r = APIToken.token r' -> r = r')
  /\ (forall kw now e r tbl',
         kw_token kw = None ->
         fst (create tbl kw now e) = Ok (r, tbl') ->
         In r tbl'
         /\ String.length (APIToken.token r) = 32%nat
         /\ string_forall is_hex_char (APIToken.token r) = true)
  /\ (forall kw now e r tbl' s,
         kw_token kw = Some s ->
         fst (create tbl kw now e) = Ok (r, tbl') ->
         In r tbl' /\ APIToken.token r = s).
Proof.
  intros Hreach. split; [exact generate_secret_token_spec|]. split; [|split].
  - destruct (reachable_distinct_keys tbl Hreach) as [_ Htok].
    exact (NoDup_map_inj APIToken.token tbl Htok).
  - intros kw now e r tbl' Hnone Hc.
    destruct (create_token _ _ _ _ _ _ Hc) as [Hin Htok].
    rewrite Hnone in Htok. rewrite Htok.
    split; [exact Hin | apply generate_secret_token_spec].
  - intros kw now e r tbl' s Hsome Hc.
    destruct (create_token _ _ _ _ _ _ Hc) as [Hin Htok].
    rewrite Hsome in Htok. now split.
Qed.

(** The same at the table holding one credential. *)
Lemma token_shape_and_uniqueness_witness :
  (forall e,
      String.length (fst (generate_secret_token e)) = 32%nat
      /\ string_forall is_hex_char (fst (generate_secret_token e)) = true)
  /\ (forall r r',
         In r sample_table -> In r' sample_table ->
         APIToken.token r = APIToken.token r' -> r = r')
  /\ (forall kw now e r tbl',
         kw_token kw = None ->
         fst (create sample_table kw now e) = Ok (r, tbl') ->
         In r tbl'
         /\ String.length (APIToken.token r) = 32%nat
         /\ string_forall is_hex_char (APIToken.token r) = true)
  /\ (forall kw now e r tbl' s,
         kw_token kw = Some s ->
         fst (create sample_table kw now e) = Ok (r, tbl') ->
         In r tbl' /\ APIToken.token r = s).
Proof.
  apply (token_shape_and_uniqueness sample_table).
  eapply (reach_create [] default_kwargs new_year_2024 sample_entropy).
  - constructor.
  - reflexivity.
Defined.

(** ** ABID declarations *)

(** On a credential the random source is the primary key. *)
Lemma apitoken_rand_value_is_pk (c : APIToken.t) :
  rand_value c = Ok (PUuid (pk c)).
Proof. reflexivity. Qed.

(** On a webhook it is the nullable [id] column, not the primary key
    [uuid]. *)
Lemma webhook_rand_value (w : OutboundWebhook.t) :
  rand_value w
  = match OutboundWebhook.id w with
    | Some u => Ok (PUuid u)
    | None => Raise ResolutionError
    end.
Proof.
  change (rand_value w)
    with (not_null (Ok (of_nullable PUuid (OutboundWebhook.id w)))).
  now destruct (OutboundWebhook.id w).
Qed.

(** C4, on [OutboundWebhook]: the declared random source is [self.id],
    which on this type is the nullable column [id] and not the primary
    key [uuid]; for a webhook stored without an [id] it is [None], so
    resolving the random source fails, while the primary key is what
    [self.uuid] names. *)
Theorem webhook_rand_src_null :
  abid_rand_src (T := OutboundWebhook.t) = "self.id"%string
  /\ getattr sample_webhook "id" = Ok PNone
  /\ rand_value sample_webhook = Raise ResolutionError
  /\ resolve sample_webhook "self.uuid" = Ok (PUuid (pk sample_webhook)).
Proof. repeat split. Qed.

(** C5: [APIToken] declares the prefix [apt_] and [OutboundWebhook] the
    prefix [whk_], each a constant of the type, 3 to 4 characters long. *)
Theorem abid_prefixes :
  abid_prefix (T := APIToken.t) = "apt_"%string
  /\ abid_prefix (T := OutboundWebhook.t) = "whk_"%string
  /\ (3 <= String.length (abid_prefix (T := APIToken.t)) <= 4)%nat
  /\ (3 <= String.length (abid_prefix (T := OutboundWebhook.t)) <= 4)%nat.
Proof. cbn. repeat split; lia. Qed.

(** C6: the declaration of [APIToken] names the token as the content/URI
    source, the id of the creating user as the subtype source and the
    creation timestamp as the timestamp source; that of [OutboundWebhook]
    names the endpoint URL, the trigger reference [ref] and the creation
    timestamp.  Each specifier is [self.] followed by an attribute, and
    that attribute of an instance is the field in question. *)
Theorem abid_sources (c : APIToken.t) (w : OutboundWebhook.t) :
  (abid_uri_src (T := APIToken.t) = "self.token"%string
   /\ getattr c "token" = Ok (PStr (APIToken.token c)))
  /\ (abid_subtype_src (T := APIToken.t) = "self.created_by_id"%string
      /\ getattr c "created_by_id" = Ok (PInt (user_id (APIToken.created_by c))))
  /\ (abid_ts_src (T := APIToken.t) = "self.created"%string
      /\ getattr c "created" = Ok (PDatetime (APIToken.created c)))
  /\ (abid_uri_src (T := OutboundWebhook.t) = "self.endpoint"%string
      /\ getattr w "endpoint" = Ok (PStr (OutboundWebhook.endpoint w)))
  /\ (abid_subtype_src (T := OutboundWebhook.t) = "self.ref"%string
      /\ getattr w "ref" = Ok (PStr (OutboundWebhook.ref w)))
  /\ (abid_ts_src (T := OutboundWebhook.t) = "self.created"%string
      /\ getattr w "created" = Ok (PDatetime (OutboundWebhook.created w))).
Proof. repeat split. Qed.

(** The same through the resolver. *)
Lemma resolve_sources (c : APIToken.t) (w : OutboundWebhook.t) :
  uri_value c = Ok (PStr (APIToken.token c))
  /\ subtype_value c = Ok (PInt (user_id (APIToken.created_by c)))
  /\ ts_value c = Ok (PDatetime (APIToken.created c))
  /\ uri_value w = Ok (PStr (OutboundWebhook.endpoint w))
  /\ subtype_value w = Ok (PStr (OutboundWebhook.ref w))
  /\ ts_value w = Ok (PDatetime (OutboundWebhook.created w)).
Proof. repeat split. Qed.

(** ** The external projection *)

(** [expires_as_iso8601] returns, unless the clock is within 36500 days
    of the end of the [datetime] range and no expiry is stored. *)
Lemma expires_as_iso8601_returns (c : APIToken.t) (now : datetime) :
  (APIToken.expires c = None -> representable (now + timedelta_days (365 * 100))) ->
  exists s, APIToken.expires_as_iso8601 c now = Ok s.
Proof.
  intros Hclock. unfold APIToken.expires_as_iso8601.
  destruct (APIToken.expires c) as [e|]; [eexists; reflexivity|].
  destruct (Hclock eq_refl) as [Hlo Hhi].
  unfold datetime_add, representableb.
  rewrite (proj2 (Z.leb_le _ _) Hlo), (proj2 (Z.ltb_lt _ _) Hhi).
  eexists; reflexivity.
Qed.

(** C7: the projection [__json__] of a credential is a mapping that
    holds the type tag under [TYPE], the record id under [id], the ABID
    under [abid], the id of the creating user under [created_by_id], the
    creation timestamp in ISO 8601 under [created] and the expiry in
    ISO 8601 under [expires].  When no expiry is stored the displayed
    expiry is computed from the clock, which must then lie at least 36500
    days before the end of the [datetime] range. *)
Theorem json_projection_keys
  (str_ABID : APIToken.t -> string) (c : APIToken.t) (now : datetime) :
  (APIToken.expires c = None -> representable (now + timedelta_days (365 * 100))) ->
  exists (m : gmap string string) (exp : string),
    APIToken.__json__ str_ABID c now = Ok m
    /\ APIToken.expires_as_iso8601 c now = Ok exp
    /\ m !! "TYPE"%string = Some "APIToken"%string
    /\ m !! "id"%string = Some (str_uuid (APIToken.pk c))
    /\ m !! "abid"%string = Some (str_ABID c)
    /\ m !! "created_by_id"%string = Some (str_int (user_id (APIToken.created_by c)))
    /\ m !! "created"%string = Some (isoformat (APIToken.created c))
    /\ m !! "expires"%string = Some exp.
Proof.
  intros Hclock. destruct (expires_as_iso8601_returns c now Hclock) as [exp Hexp].
  unfold APIToken.__json__. rewrite Hexp. cbn [mbind result_bind].
  eexists. exists exp. split; [reflexivity|]. split; [reflexivity|].
  repeat split; by simplify_map_eq.
Qed.

(** The projection of the sample credential on 2024-01-01. *)
Lemma json_projection_keys_witness :
  exists (m : gmap string string) (exp : string),
    APIToken.__json__ APIToken.abid sample_token new_year_2024 = Ok m
    /\ APIToken.expires_as_iso8601 sample_token new_year_2024 = Ok exp
    /\ m !! "TYPE"%string = Some "APIToken"%string
    /\ m !! "id"%string = Some (str_uuid (APIToken.pk sample_token))
    /\ m !! "abid"%string = Some (APIToken.abid sample_token)
    /\ m !! "created_by_id"%string
       = Some (str_int (user_id (APIToken.created_by sample_token)))
    /\ m !! "created"%string = Some (isoformat (APIToken.created sample_token))
    /\ m !! "expires"%string = Some exp.
Proof.
  apply (json_projection_keys APIToken.abid sample_token new_year_2024).
  intros _. unfold representable. vm_compute. split; [discriminate | reflexivity].
Defined.

(** C9: the projection [__json__] of a credential holds the whole token,
    unmasked, under the key [token]. *)
Theorem json_projection_token
  (str_ABID : APIToken.t -> string) (c : APIToken.t) (now : datetime) :
  (APIToken.expires c = None -> representable (now + timedelta_days (365 * 100))) ->
  exists m : gmap string string,
    APIToken.__json__ str_ABID c now = Ok m
    /\ m !! "token"%string = Some (APIToken.token c).
Proof.
  intros Hclock. destruct (expires_as_iso8601_returns c now Hclock) as [exp Hexp].
  unfold APIToken.__json__. rewrite Hexp. cbn [mbind result_bind].
  eexists. split; [reflexivity|]. by simplify_map_eq.
Qed.

(** The token of the sample credential in its projection. *)
Lemma json_projection_token_witness :
  exists m : gmap string string,
    APIToken.__json__ APIToken.abid sample_token new_year_2024 = Ok m
    /\ m !! "token"%string = Some "0123456789abcdef0123456789abcdef"%string.
Proof.
  apply (json_projection_token APIToken.abid sample_token new_year_2024).
  intros _. unfold representable. vm_compute. split; [discriminate | reflexivity].
Defined.

(** ** The debug representation *)

(** C10: [__repr__] reads [self.user], which is not an attribute of a
    credential (the foreign key is named [created_by]); on every
    credential it raises [AttributeError] and returns no string. *)
Theorem repr_raises (c : APIToken.t) :
  APIToken.__repr__ c = Raise AttributeError
  /\ getattr c "user" = Raise AttributeError
  /\ getattr c "created_by" = Ok (PUser (APIToken.created_by c)).
Proof. repeat split. Qed.

(** * Further properties *)

(** ** Validity over time *)

(** X1: a credential that is not valid at an instant is not valid at any
    later instant. *)
Theorem is_valid_stays_false (c : APIToken.t) (d d' clock : datetime) :
  d <= d' ->
  APIToken.is_valid c (Some d) clock = false ->
  APIToken.is_valid c (Some d') clock = false.
Proof.
  intros Hle Hd.
  apply (proj1 (is_valid_false_iff c d clock)) in Hd as (e & He & Hlt).
  apply (proj1 (is_valid_false_iff c d' clock)). exists e. split; [exact He | lia].
Qed.

(** An instance. *)
Lemma is_valid_stays_false_witness :
  APIToken.is_valid (with_expires sample_token (Some new_year_2024))
    (Some (new_year_2024 + 2)) 0 = false.
Proof.
  apply (is_valid_stays_false _ (new_year_2024 + 1) (new_year_2024 + 2) 0).
  - vm_compute. discriminate.
  - reflexivity.
Defined.

(** X2: moving the expiry of a credential to a later instant, or clearing
    it, never makes a valid credential invalid. *)
Theorem is_valid_later_expiry
  (c : APIToken.t) (e' : option datetime) (d clock : datetime) :
  APIToken.is_valid c (Some d) clock = true ->
  (forall new, e' = Some new ->
               exists e, APIToken.expires c = Some e /\ e <= new) ->
  APIToken.is_valid (with_expires c e') (Some d) clock = true.
Proof.
  unfold APIToken.is_valid, with_expires, datetime_lt. cbn [APIToken.expires].
  intros Hvalid Hlater. destruct e' as [new|]; [|reflexivity].
  destruct (Hlater new eq_refl) as (e & He & Hle). rewrite He in Hvalid.
  destruct (Z.ltb_spec e d); [discriminate|].
  destruct (Z.ltb_spec new d); [lia | reflexivity].
Qed.

(** An instance. *)
Lemma is_valid_later_expiry_witness :
  APIToken.is_valid
    (with_expires (with_expires sample_token (Some new_year_2024))
       (Some (new_year_2024 + US_PER_DAY)))
    (Some new_year_2024) 0 = true.
Proof.
  apply (is_valid_later_expiry (with_expires sample_token (Some new_year_2024))
           (Some (new_year_2024 + US_PER_DAY)) new_year_2024 0).
  - reflexivity.
  - intros new [= <-]. exists new_year_2024. split; [reflexivity|].
    vm_compute. discriminate.
Defined.

(** ** When the displayed expiry and the projection fail *)

(** X3: [expires_as_iso8601] raises only [OverflowError], and exactly when
    no expiry is stored and the clock plus 36500 days is past the last
    [datetime]; in every other case it returns a string. *)
Theorem expires_as_iso8601_raises (c : APIToken.t) (now : datetime) :
  (APIToken.expires_as_iso8601 c now = Raise OverflowError
   <-> APIToken.expires c = None
       /\ ~ representable (now + timedelta_days (365 * 100)))
  /\ (forall e, APIToken.expires_as_iso8601 c now = Raise e -> e = OverflowError)
  /\ (APIToken.expires_as_iso8601 c now <> Raise OverflowError
      -> exists s, APIToken.expires_as_iso8601 c now = Ok s).
Proof.
  unfold APIToken.expires_as_iso8601, datetime_add, representableb, representable.
  destruct (APIToken.expires c) as [e|]; cbn [mbind result_bind].
  - repeat split; try discriminate.
    + intros [[=] _].
    + intros _. eexists; reflexivity.
  - destruct (Z.leb_spec 0 (now + timedelta_days (365 * 100)));
      destruct (Z.ltb_spec (now + timedelta_days (365 * 100)) DATETIME_END);
      cbn [andb mbind result_bind]; repeat split; try discriminate; try lia;
      try (intros [_ H']; exfalso; apply H'; lia);
      try (intros e [= <-]; reflexivity);
      try (intros _; eexists; reflexivity);
      try (intros H'; exfalso; apply H'; reflexivity).
Qed.


(** ** What the projection holds *)

(** X5: the keys of the mapping [__json__] returns are exactly [TYPE],
    [id], [abid], [created_by_id], [token], [created] and [expires]; it
    holds no other entry. *)
Theorem json_keys_exactly
  (str_ABID : APIToken.t -> string) (c : APIToken.t) (now : datetime)
  (m : gmap string string) :
  APIToken.__json__ str_ABID c now = Ok m ->
  dom m = ({[ "TYPE"; "id"; "abid"; "created_by_id"; "token"; "created";
              "expires" ]} : gset string)%string
  /\ size m = 7%nat.
Proof.
  unfold APIToken.__json__. intros Hm.
  destruct (APIToken.expires_as_iso8601 c now) as [s|e]; [|discriminate].
  cbn [mbind result_bind] in Hm. injection Hm as <-.
  assert (dom (<["expires":=s]> (<["created":=isoformat (APIToken.created c)]>
            (<["token":=APIToken.token c]>
            (<["created_by_id":=str_int (APIToken.created_by_id c)]>
            (<["abid":=str_ABID c]> (<["id":=str_uuid (APIToken.pk c)]>
            (<["TYPE":="APIToken"]> (∅ : gmap string string))))))))
          = ({[ "TYPE"; "id"; "abid"; "created_by_id"; "token"; "created";
                "expires" ]} : gset string)%string) as Hdom.
  { rewrite !dom_insert_L, dom_empty_L. set_solver. }
  split; [exact Hdom|].
  rewrite <- size_dom, Hdom. reflexivity.
Qed.

(** An instance. *)
Lemma json_keys_exactly_witness :
  exists m : gmap string string,
    APIToken.__json__ APIToken.abid sample_token new_year_2024 = Ok m
    /\ dom m = ({[ "TYPE"; "id"; "abid"; "created_by_id"; "token"; "created";
                   "expires" ]} : gset string)%string
    /\ size m = 7%nat.
Proof.
  eexists. split; [reflexivity|].
  apply (json_keys_exactly APIToken.abid sample_token new_year_2024).
  reflexivity.
Defined.

(** X6: the [created] entry of the projection reads back as the creation
    instant, and the [expires] entry as the stored expiry. *)
Theorem json_timestamps_read_back
  (str_ABID : APIToken.t -> string) (c : APIToken.t) (now : datetime)
  (m : gmap string string) :
  APIToken.__json__ str_ABID c now = Ok m ->
  representable (APIToken.created c) ->
  (m !! "created"%string) ≫= instant_of_iso8601 = Some (APIToken.created c)
  /\ (forall e, APIToken.expires c = Some e -> representable e ->
      (m !! "expires"%string) ≫= instant_of_iso8601 = Some e).
Proof.
  unfold APIToken.__json__. intros Hm Hcreated.
  destruct (APIToken.expires_as_iso8601 c now) as [s|e0] eqn:Hexp; [|discriminate].
  cbn [mbind result_bind] in Hm. injection Hm as <-. split.
  - simplify_map_eq. cbn [mbind option_bind].
    now apply instant_of_iso8601_isoformat.
  - intros e He Hrep. unfold APIToken.expires_as_iso8601 in Hexp.
    rewrite He in Hexp. cbn [mbind result_bind] in Hexp. injection Hexp as <-.
    simplify_map_eq. cbn [mbind option_bind].
    now apply instant_of_iso8601_isoformat.
Qed.

(** An instance. *)
Lemma json_timestamps_read_back_witness :
  exists m : gmap string string,
    APIToken.__json__ APIToken.abid
      (with_expires sample_token (Some (new_year_2024 + 1))) new_year_2024 = Ok m
    /\ (m !! "created"%string) ≫= instant_of_iso8601 = Some new_year_2024
    /\ (forall e, Some (new_year_2024 + 1) = Some e -> representable e ->
        (m !! "expires"%string) ≫= instant_of_iso8601 = Some e).
Proof.
  eexists. split; [reflexivity|].
  apply (json_timestamps_read_back APIToken.abid
           (with_expires sample_token (Some (new_year_2024 + 1))) new_year_2024).
  - reflexivity.
  - unfold representable. vm_compute. split; [discriminate | reflexivity].
Defined.

(** ** The displayed expiry against validity *)

(** X7: for a credential with a stored expiry, the displayed expiry reads
    back as an instant that is earlier than [d] exactly when the
    credential is not valid at [d]. *)
Theorem display_agrees_with_is_valid
  (c : APIToken.t) (e d now : datetime) :
  APIToken.expires c = Some e -> representable e ->
  exists s t,
    APIToken.expires_as_iso8601 c now = Ok s
    /\ instant_of_iso8601 s = Some t
    /\ (APIToken.is_valid c (Some d) now = false <-> t < d).
Proof.
  intros He Hrep. exists (isoformat e), e.
  unfold APIToken.expires_as_iso8601, APIToken.is_valid, datetime_lt.
  rewrite He. cbn [mbind result_bind].
  split; [reflexivity|]. split; [now apply instant_of_iso8601_isoformat|].
  destruct (Z.ltb_spec e d); split; try discriminate; try lia; reflexivity.
Qed.

(** An instance. *)
Lemma display_agrees_with_is_valid_witness :
  exists s t,
    APIToken.expires_as_iso8601
      (with_expires sample_token (Some new_year_2024)) 0 = Ok s
    /\ instant_of_iso8601 s = Some t
    /\ (APIToken.is_valid (with_expires sample_token (Some new_year_2024))
          (Some (new_year_2024 + 1)) 0 = false
        <-> t < new_year_2024 + 1).
Proof.
  apply (display_agrees_with_is_valid
           (with_expires sample_token (Some new_year_2024))
           new_year_2024 (new_year_2024 + 1) 0).
  - reflexivity.
  - unfold representable. vm_compute. split; [discriminate | reflexivity].
Defined.

(** X8: for a credential with no expiry, the displayed expiry is an instant
    after the clock; at any instant after it the credential is still
    valid, although the displayed expiry has passed. *)
Theorem sentinel_does_not_decide_validity (c : APIToken.t) (now d : datetime) :
  APIToken.expires c = None ->
  representable (now + timedelta_days (365 * 100)) ->
  now + timedelta_days (365 * 100) < d ->
  APIToken.is_valid c (Some d) now = true
  /\ exists s t,
       APIToken.expires_as_iso8601 c now = Ok s
       /\ instant_of_iso8601 s = Some t
       /\ now < t < d.
Proof.
  intros Hnone Hrep Hd. split.
  - unfold APIToken.is_valid. now rewrite Hnone.
  - exists (isoformat (now + timedelta_days (365 * 100))),
      (now + timedelta_days (365 * 100)).
    unfold APIToken.expires_as_iso8601, datetime_add, representableb.
    rewrite Hnone. destruct Hrep as [Hlo Hhi].
    rewrite (proj2 (Z.leb_le _ _) Hlo), (proj2 (Z.ltb_lt _ _) Hhi).
    cbn [andb mbind result_bind].
    split; [reflexivity|].
    split; [apply instant_of_iso8601_isoformat; split; assumption|].
    split; [|exact Hd].
    unfold timedelta_days, US_PER_DAY, US_PER_SECOND. lia.
Qed.

(** An instance. *)
Lemma sentinel_does_not_decide_validity_witness :
  APIToken.is_valid sample_token
    (Some (new_year_2024 + timedelta_days (365 * 100) + 1)) new_year_2024 = true
  /\ exists s t,
       APIToken.expires_as_iso8601 sample_token new_year_2024 = Ok s
       /\ instant_of_iso8601 s = Some t
       /\ new_year_2024 < t < new_year_2024 + timedelta_days (365 * 100) + 1.
Proof.
  apply (sentinel_does_not_decide_validity sample_token new_year_2024).
  - reflexivity.
  - unfold representable. vm_compute. split; [discriminate | reflexivity].
  - vm_compute. reflexivity.
Defined.

Lemma Ok_inj {A : Type} (a b : A) : Ok a = Ok b -> a = b.
Proof. intros [=]. assumption. Qed.

(** X9: with no expiry stored, the displayed expiry is a different string at
    every clock reading; with an expiry stored it does not depend on the
    clock. *)
Theorem display_follows_the_clock (c : APIToken.t) (T1 T2 : datetime) :
  representable (T1 + timedelta_days (365 * 100)) ->
  representable (T2 + timedelta_days (365 * 100)) ->
  (APIToken.expires c = None ->
   (APIToken.expires_as_iso8601 c T1 = APIToken.expires_as_iso8601 c T2
    <-> T1 = T2))
  /\ (APIToken.expires c <> None ->
      APIToken.expires_as_iso8601 c T1 = APIToken.expires_as_iso8601 c T2).
Proof.
  intros H1 H2. unfold APIToken.expires_as_iso8601. split.
  - intros ->. unfold datetime_add, representableb.
    destruct H1 as [Hlo1 Hhi1], H2 as [Hlo2 Hhi2].
    rewrite (proj2 (Z.leb_le _ _) Hlo1), (proj2 (Z.ltb_lt _ _) Hhi1).
    rewrite (proj2 (Z.leb_le _ _) Hlo2), (proj2 (Z.ltb_lt _ _) Hhi2).
    cbn [andb mbind result_bind]. split; [|now intros ->].
    intros Heq. apply Ok_inj in Heq.
    assert (Some (T1 + timedelta_days (365 * 100))
            = Some (T2 + timedelta_days (365 * 100))) as Hsome.
    { transitivity (instant_of_iso8601 (isoformat (T1 + timedelta_days (365 * 100)))).
      - symmetry. apply instant_of_iso8601_isoformat. split; assumption.
      - rewrite Heq. apply instant_of_iso8601_isoformat. split; assumption. }
    injection Hsome. lia.
  - intros Hsome. destruct (APIToken.expires c); [reflexivity | contradiction].
Qed.

(** An instance. *)
Lemma display_follows_the_clock_witness :
  (APIToken.expires sample_token = None ->
   (APIToken.expires_as_iso8601 sample_token new_year_2024
    = APIToken.expires_as_iso8601 sample_token (new_year_2024 + 1)
    <-> new_year_2024 = new_year_2024 + 1))
  /\ (APIToken.expires sample_token <> None ->
      APIToken.expires_as_iso8601 sample_token new_year_2024
      = APIToken.expires_as_iso8601 sample_token (new_year_2024 + 1)).
Proof.
  apply (display_follows_the_clock sample_token new_year_2024 (new_year_2024 + 1)).
  - unfold representable. vm_compute. split; [discriminate | reflexivity].
  - unfold representable. vm_compute. split; [discriminate | reflexivity].
Defined.

(** ** The sentinel against one hundred calendar years *)

Lemma days_before_year_succ y :
  days_before_year (y + 1)
  = days_before_year y + 365 + (if is_leap y then 1 else 0).
Proof.
  unfold days_before_year, is_leap. cbv zeta.
  replace (y + 1 - 1) with y by lia.
  repeat match goal with
         | |- context [?x =? ?z] => destruct (Z.eqb_spec x z)
         end; cbn [andb orb negb]; Z.div_mod_to_equations; lia.
Qed.

Lemma days_before_year_century y :
  36524 <= days_before_year (y + 100) - days_before_year y <= 36525.
Proof. unfold days_before_year. cbv zeta. Z.div_mod_to_equations. lia. Qed.

Lemma century_apart y m d :
  1 <= m <= 12 -> 1 <= d <= days_in_month y m ->
  36523
  <= ymd2ord (y + 100) m (Z.min d (days_in_month (y + 100) m)) - ymd2ord y m d
  <= 36525.
Proof.
  intros Hm Hd.
  pose proof (days_before_year_century y) as HA.
  pose proof (days_before_year_century (y + 1)) as HB.
  pose proof (days_before_year_succ y) as HC.
  pose proof (days_before_year_succ (y + 100)) as HD.
  replace (y + 1 + 100) with (y + 100 + 1) in HB by lia.
  unfold ymd2ord, days_before_month, days_in_month in *.
  destruct (is_leap y), (is_leap (y + 100));
    assert (m = 1 \/ m = 2 \/ m = 3 \/ m = 4 \/ m = 5 \/ m = 6 \/ m = 7
            \/ m = 8 \/ m = 9 \/ m = 10 \/ m = 11 \/ m = 12) as Hcases by lia;
    repeat (destruct Hcases as [-> | Hcases]; [cbn in *; lia|]);
    subst m; cbn in *; lia.
Qed.

(** X10: the instant 36500 days after [T], which [expires_as_iso8601]
    displays for a credential with no expiry, is between 23 and 25 days
    earlier than the same date and time one hundred calendar years after
    [T]. *)
Theorem sentinel_short_of_calendar_years (T : datetime) :
  representable T ->
  23 * US_PER_DAY
  <= plus_calendar_years T 100 - (T + timedelta_days (365 * 100))
  <= 25 * US_PER_DAY.
Proof.
  intros HT. pose proof (fields_of_spec T HT) as Hf. cbv zeta in Hf.
  unfold plus_calendar_years.
  destruct (fields_of T) as [y m d hh mm ss us].
  cbn [f_year f_month f_day f_hour f_minute f_second f_microsecond] in *.
  destruct Hf as (Hof & Hy & Hm & Hd & _).
  pose proof (century_apart y m d Hm Hd) as Hc.
  rewrite <- Hof. unfold of_fields, timedelta_days.
  cbn [f_year f_month f_day f_hour f_minute f_second f_microsecond].
  unfold US_PER_DAY, US_PER_SECOND in *. lia.
Qed.

(** An instance. *)
Lemma sentinel_short_of_calendar_years_witness :
  23 * US_PER_DAY
  <= plus_calendar_years new_year_2024 100
     - (new_year_2024 + timedelta_days (365 * 100))
  <= 25 * US_PER_DAY.
Proof.
  apply (sentinel_short_of_calendar_years new_year_2024).
  unfold representable. vm_compute. split; [discriminate | reflexivity].
Defined.

(** ** Tokens carry the bytes they are drawn from *)

Lemma byte_of_hex_digits (b : Byte.byte) :
  byte_of_hex (hex_digit (N.shiftr (Byte.to_N b) 4))
    (hex_digit (N.land (Byte.to_N b) 15)) = Some b.
Proof. destruct b; reflexivity. Qed.

Lemma unhexlify_hexlify bs : unhexlify (hexlify bs) = Some bs.
Proof.
  induction bs as [|b bs IH]; [reflexivity|].
  cbn [hexlify unhexlify]. rewrite byte_of_hex_digits, IH. reflexivity.
Qed.

(** X11: reading the token as hexadecimal gives back the 16 bytes drawn from
    the random source. *)
Theorem token_reads_back (e : entropy) :
  unhexlify (fst (generate_secret_token e)) = Some (map e (seq 0 16)).
Proof.
  unfold generate_secret_token, token_hex, urandom. cbn [fst].
  apply unhexlify_hexlify.
Qed.

(** X12: two generated tokens are equal exactly when the 16 bytes they were
    drawn from are equal. *)
Theorem tokens_equal_iff (e e' : entropy) :
  fst (generate_secret_token e) = fst (generate_secret_token e')
  <-> forall i, (i < 16)%nat -> e i = e' i.
Proof.
  split.
  - intros Heq i Hi.
    assert (Some (map e (seq 0 16)) = Some (map e' (seq 0 16))) as Hsome
        by (rewrite <- !token_reads_back; now rewrite Heq).
    assert (map e (seq 0 16) = map e' (seq 0 16)) as Hs by congruence.
    apply (proj1 map_ext_in_iff Hs). apply in_seq. lia.
  - intros Hagree. unfold generate_secret_token, token_hex, urandom. cbn [fst].
    f_equal. apply map_ext_in. intros i Hi. apply Hagree.
    apply in_seq in Hi. lia.
Qed.

(** X13: [generate_secret_token] consumes 16 bytes of the random source; a
    second call returns the same token only if the next 16 bytes repeat
    the first 16. *)
Theorem successive_tokens (e : entropy) :
  snd (generate_secret_token e) = (fun i => e (16 + i)%nat)
  /\ (fst (generate_secret_token (snd (generate_secret_token e)))
      = fst (generate_secret_token e)
      <-> forall i, (i < 16)%nat -> e (16 + i)%nat = e i).
Proof.
  split; [reflexivity|]. apply tokens_equal_iff.
Qed.

(** ** Saving and creating credentials *)







(** ** Primary keys and the nullable unique column *)







(** ** The help texts set by the class body of [OutboundWebhook] *)

Import WebhookBaseMeta.

Lemma set_help_text_dom name text meta :
  dom (fst (set_help_text name text meta)) = dom meta.
Proof.
  unfold set_help_text. destruct (meta !! name) eqn:Hl; cbn [fst]; [|reflexivity].
  rewrite dom_insert_L. apply elem_of_dom_2 in Hl.
  apply subseteq_union_1_L. now apply singleton_subseteq_l.
Qed.

Lemma set_help_text_other name text meta g :
  g <> name -> fst (set_help_text name text meta) !! g = meta !! g.
Proof.
  intros Hne. unfold set_help_text.
  destruct (meta !! name); cbn [fst]; [|reflexivity].
  now rewrite lookup_insert_ne.
Qed.

Lemma run_dom stmts :
  forall meta, dom (fst (run stmts meta)) = dom meta.
Proof.
  induction stmts as [|[name text] rest IH]; intros meta; [reflexivity|].
  cbn [run]. pose proof (set_help_text_dom name text meta) as Hd.
  destruct (set_help_text name text meta) as [meta' [|f]]; cbn [fst] in *.
  - now rewrite IH.
  - exact Hd.
Qed.

Lemma run_other stmts g :
  (forall text, ~ In (g, text) stmts) ->
  forall meta, fst (run stmts meta) !! g = meta !! g.
Proof.
  induction stmts as [|[name text] rest IH]; intros Hg meta; [reflexivity|].
  cbn [run].
  assert (g <> name) as Hne by (intros ->; apply (Hg text); now left).
  pose proof (set_help_text_other name text meta g Hne) as Ho.
  destruct (set_help_text name text meta) as [meta' [|f]]; cbn [fst] in *.
  - rewrite IH; [exact Ho|]. intros t Hin. apply (Hg t). now right.
  - exact Ho.
Qed.

(** X18: the assignments of the class body neither add nor remove a field
    of [WebhookBase], and leave every field other than [name], [signal],
    [ref] and [endpoint] as it was. *)
Theorem patch_help_texts_frame (meta : gmap string string) :
  dom (fst (patch_help_texts meta)) = dom meta
  /\ (forall g : string,
         g <> "name"%string -> g <> "signal"%string -> g <> "ref"%string ->
         g <> "endpoint"%string ->
         fst (patch_help_texts meta) !! g = meta !! g).
Proof.
  split; [apply run_dom|].
  intros g H1 H2 H3 H4. apply run_other.
  intros text Hin.
  repeat (destruct Hin as [Hin|Hin]; [congruence|]). destruct Hin.
Qed.

(** X19: the assignments run to the end exactly when [WebhookBase] has the
    four fields [name], [signal], [ref] and [endpoint]; each of them then
    holds the help text the class body gives it. *)
Theorem patch_help_texts_completes (meta : gmap string string) :
  (snd (patch_help_texts meta) = Done
   <-> is_Some (meta !! "name"%string) /\ is_Some (meta !! "signal"%string)
       /\ is_Some (meta !! "ref"%string) /\ is_Some (meta !! "endpoint"%string))
  /\ (snd (patch_help_texts meta) = Done ->
      fst (patch_help_texts meta) !! "name"%string = Some NAME_HELP
      /\ fst (patch_help_texts meta) !! "signal"%string = Some SIGNAL_HELP
      /\ fst (patch_help_texts meta) !! "ref"%string = Some REF_HELP
      /\ fst (patch_help_texts meta) !! "endpoint"%string = Some ENDPOINT_HELP).
Proof.
  unfold patch_help_texts, help_text_assignments. cbn [run]. unfold set_help_text.
  destruct (meta !! "name"%string) as [n|] eqn:Hn; cbn [fst snd].
  2:{ split; [split; [discriminate | intros ([? [=]] & _)] | discriminate]. }
  rewrite lookup_insert_ne by discriminate.
  destruct (meta !! "signal"%string) as [s|] eqn:Hs; cbn [fst snd].
  2:{ split; [split; [discriminate | intros (_ & [? [=]] & _)] | discriminate]. }
  rewrite !lookup_insert_ne by discriminate.
  destruct (meta !! "ref"%string) as [r|] eqn:Hr; cbn [fst snd].
  2:{ split; [split; [discriminate | intros (_ & _ & [? [=]] & _)] | discriminate]. }
  rewrite !lookup_insert_ne by discriminate.
  destruct (meta !! "endpoint"%string) as [p|] eqn:Hp; cbn [fst snd].
  2:{ split; [split; [discriminate | intros (_ & _ & _ & [? [=]])] | discriminate]. }
  split.
  - split; [intros _; repeat split; eauto | reflexivity].
  - intros _. repeat split; by simplify_map_eq.
Qed.

Lemma run_stops stmts :
  forall meta meta' f,
    run stmts meta = (meta', FieldDoesNotExist f) ->
    exists before text after,
      stmts = before ++ (f, text) :: after
      /\ run before meta = (meta', Done)
      /\ meta' !! f = None.
Proof.
  induction stmts as [|[name text] rest IH]; intros meta meta' f Hrun;
    [discriminate|].
  cbn [run] in Hrun. unfold set_help_text in Hrun.
  destruct (meta !! name) as [old|] eqn:Hl.
  - destruct (IH _ _ _ Hrun) as (before & t & after & -> & Hbefore & Hf).
    exists ((name, text) :: before), t, after. split; [reflexivity|].
    split; [|exact Hf]. cbn [run]. unfold set_help_text. now rewrite Hl.
  - injection Hrun as <- <-. exists [], text, rest. now repeat split.
Qed.

(** X20: when the assignments raise [FieldDoesNotExist] for a field, that
    field is absent from [WebhookBase], and what remains changed is
    exactly the assignments that precede it in the class body. *)
Theorem patch_help_texts_stops (meta meta' : gmap string string) (f : string) :
  patch_help_texts meta = (meta', FieldDoesNotExist f) ->
  meta !! f = None
  /\ exists before text after,
       help_text_assignments = before ++ (f, text) :: after
       /\ run before meta = (meta', Done).
Proof.
  intros Hrun. unfold patch_help_texts in Hrun.
  destruct (run_stops _ _ _ _ Hrun) as (before & text & after & Hsplit & Hb & Hf).
  split; [|eauto].
  apply not_elem_of_dom. apply not_elem_of_dom in Hf.
  pose proof (run_dom help_text_assignments meta) as Hd.
  rewrite Hrun in Hd. cbn [fst] in Hd. now rewrite <- Hd.
Qed.

(** An instance. *)
Lemma patch_help_texts_stops_witness :
  base.delete "ref"%string sample_webhook_meta !! "ref"%string = None
  /\ exists before text after,
       help_text_assignments = before ++ ("ref"%string, text) :: after
       /\ run before (base.delete "ref"%string sample_webhook_meta)
          = (<["signal" := SIGNAL_HELP]>
               (<["name" := NAME_HELP]>
                  (base.delete "ref" sample_webhook_meta)),
             Done)%string.
Proof.
  apply (patch_help_texts_stops (base.delete "ref"%string sample_webhook_meta)).
  vm_compute. reflexivity.
Defined.

(** ** A created credential and its expiry *)

Lemma create_fields tbl kw now e r tbl' :
  fst (create tbl kw now e) = Ok (r, tbl') ->
  APIToken.expires r = kw_expires kw /\ APIToken.created r = now
  /\ APIToken.created_by r = kw_created_by kw /\ tbl' = r :: tbl.
Proof.
  unfold create, init. intros Hc.
  destruct (match kw_id kw with Some i => (i, e) | None => uuid4 e end) as [i e1].
  destruct (match kw_token kw with
            | Some s => (s, e1)
            | None => generate_secret_token e1
            end) as [tok e2].
  cbn [fst] in Hc.
  match type of Hc with (if ?b then _ else _) = _ => destruct b end;
    [discriminate|].
  injection Hc as <- <-. now repeat split.
Qed.

(** X17: a credential just created is not valid at [d] exactly when an
    expiry was passed to its creation and that expiry is earlier than
    [d]; created without an expiry it is valid at every instant. *)
Theorem created_credential_validity
  (tbl : table) (kw : kwargs) (now : datetime) (e : entropy)
  (r : APIToken.t) (tbl' : table) :
  fst (create tbl kw now e) = Ok (r, tbl') ->
  forall d clock,
    APIToken.is_valid r (Some d) clock = false
    <-> exists x, kw_expires kw = Some x /\ x < d.
Proof.
  intros Hc d clock. destruct (create_fields _ _ _ _ _ _ Hc) as (He & _).
  rewrite <- He. apply is_valid_false_iff.
Qed.

(** An instance. *)
Lemma created_credential_validity_witness :
  APIToken.is_valid (hd sample_token sample_table) (Some new_year_2024) 0 = false
  <-> exists x, kw_expires default_kwargs = Some x /\ x < new_year_2024.
Proof.
  eapply (created_credential_validity [] default_kwargs new_year_2024
            sample_entropy (hd sample_token sample_table) sample_table).
  reflexivity.
Defined.

(** ** The shape of a rendered instant *)

Lemma zero_padded_length w n : String.length (zero_padded w n) = w.
Proof. induction w as [|w IH]; cbn [zero_padded String.length]; congruence. Qed.

Lemma append_length (s1 s2 : string) :
  String.length (s1 +:+ s2) = (String.length s1 + String.length s2)%nat.
Proof.
  induction s1 as [|c s1 IH]; [reflexivity|].
  rewrite append_cons. cbn [String.length]. now rewrite IH.
Qed.

Lemma isoformat_length (t : datetime) :
  String.length (isoformat t)
  = if f_microsecond (fields_of t) =? 0 then 25%nat else 32%nat.
Proof.
  unfold isoformat. rewrite !append_length, !zero_padded_length.
  destruct (f_microsecond (fields_of t) =? 0).
  - reflexivity.
  - rewrite append_length, zero_padded_length. reflexivity.
Qed.

(** X21: every string [expires_as_iso8601] returns is 25 or 32 characters
    long. *)
Theorem displayed_expiry_length (c : APIToken.t) (now : datetime) (s : string) :
  APIToken.expires_as_iso8601 c now = Ok s ->
  String.length s = 25%nat \/ String.length s = 32%nat.
Proof.
  unfold APIToken.expires_as_iso8601. intros Hs.
  destruct (match APIToken.expires c with
            | Some e => Ok e
            | None => datetime_add now (timedelta_days (365 * 100))
            end) as [t|]; [|discriminate].
  cbn [mbind result_bind] in Hs. apply Ok_inj in Hs. subst s.
  rewrite isoformat_length. destruct (_ =? _); auto.
Qed.

(** An instance. *)
Lemma displayed_expiry_length_witness :
  String.length "2123-12-08T00:00:00+00:00" = 25%nat
  \/ String.length "2123-12-08T00:00:00+00:00" = 32%nat.
Proof.
  apply (displayed_expiry_length sample_token new_year_2024).
  reflexivity.
Defined.

(** ** The default primary key *)

Lemma log2_below (a k : N) : (0 < k)%N -> (a < 2 ^ k)%N -> (N.log2 a < k)%N.
Proof.
  intros Hk Ha. destruct (N.eq_dec a 0%N) as [->|Ha0]; [exact Hk|].
  apply N.log2_lt_pow2; [lia | exact Ha].
Qed.

Lemma lor_below (a b k : N) :
  (a < 2 ^ k)%N -> (b < 2 ^ k)%N -> (N.lor a b < 2 ^ k)%N.
Proof.
  intros Ha Hb. destruct (N.eq_dec k 0%N) as [->|Hk].
  - change (2 ^ 0)%N with 1%N in *.
    assert (a = 0%N) as -> by lia. assert (b = 0%N) as -> by lia.
    reflexivity.
  - destruct (N.eq_dec (N.lor a b) 0%N) as [->|Hnz].
    { apply N.neq_0_lt_0, N.pow_nonzero. discriminate. }
    apply N.log2_lt_pow2; [lia|].
    rewrite N.log2_lor. apply N.max_lub_lt; apply log2_below; lia || assumption.
Qed.

Lemma ldiff_below (a m k : N) : (a < 2 ^ k)%N -> (N.ldiff a m < 2 ^ k)%N.
Proof. intros Ha. pose proof (N.ldiff_le_l a m). lia. Qed.

Lemma int_from_bytes_step (acc k : N) (b : Byte.byte) :
  (acc < 2 ^ k)%N -> (N.lor (N.shiftl acc 8) (Byte.to_N b) < 2 ^ (k + 8))%N.
Proof.
  intros Hacc. apply lor_below.
  - rewrite N.shiftl_mul_pow2, N.pow_add_r.
    apply N.mul_lt_mono_pos_r; [reflexivity | exact Hacc].
  - pose proof (Byte.to_N_bounded b) as Hb.
    apply N.le_lt_trans with 255%N; [exact Hb|].
    apply N.lt_le_trans with (2 ^ 8)%N; [reflexivity|].
    apply N.pow_le_mono_r; lia.
Qed.

Lemma int_from_bytes_fold bs :
  forall acc k,
    (acc < 2 ^ k)%N ->
    (fold_left (fun acc b => N.lor (N.shiftl acc 8) (Byte.to_N b)) bs acc
     < 2 ^ (k + 8 * N.of_nat (length bs)))%N.
Proof.
  induction bs as [|b bs IH]; intros acc k Hacc; cbn [fold_left length].
  - now rewrite N.mul_0_r, N.add_0_r.
  - replace (k + 8 * N.of_nat (S (length bs)))%N
      with ((k + 8) + 8 * N.of_nat (length bs))%N by lia.
    apply IH. now apply int_from_bytes_step.
Qed.

(** X22: the default primary key drawn by [uuid4] is a 128-bit integer
    whose version field is 4 and whose variant field is that of
    RFC 4122. *)
Theorem uuid4_is_version_4 (e : entropy) :
  let u := fst (uuid4 e) in
  (u < 2 ^ 128)%N
  /\ N.land (N.shiftr u 76) 15 = 4%N
  /\ N.land (N.shiftr u 62) 3 = 2%N.
Proof.
  unfold uuid4, urandom. cbn [fst]. cbv zeta.
  set (i := int_from_bytes (map e (seq 0 16))).
  assert (i < 2 ^ 128)%N as Hi.
  { unfold i, int_from_bytes.
    pose proof (int_from_bytes_fold (map e (seq 0 16)) 0%N 0%N
                  ltac:(reflexivity)) as Hb.
    now rewrite length_map, length_seq in Hb. }
  clearbody i. unfold clear_bits. split; [|split].
  - repeat first [apply lor_below | apply ldiff_below]; try exact Hi; reflexivity.
  - apply N.bits_inj. intros n.
    rewrite N.land_spec, N.shiftr_spec', !N.lor_spec, !N.ldiff_spec, !N.lor_spec,
      !N.ldiff_spec.
    destruct (N.lt_ge_cases n 4) as [Hn|Hn].
    + assert (n = 0 \/ n = 1 \/ n = 2 \/ n = 3)%N as Hc by lia.
      destruct Hc as [-> | [-> | [-> | ->]]]; cbn;
        rewrite ?andb_false_r, ?orb_true_r, ?andb_true_r, ?orb_false_r;
        reflexivity.
    + rewrite (N.bits_above_log2 15 n) by (cbn; lia).
      rewrite (N.bits_above_log2 4 n) by (cbn; lia).
      now rewrite andb_false_r.
  - apply N.bits_inj. intros n.
    rewrite N.land_spec, N.shiftr_spec', !N.lor_spec, !N.ldiff_spec, !N.lor_spec,
      !N.ldiff_spec.
    destruct (N.lt_ge_cases n 2) as [Hn|Hn].
    + assert (n = 0 \/ n = 1)%N as Hc by lia.
      destruct Hc as [-> | ->]; cbn;
        rewrite ?andb_false_r, ?orb_true_r, ?andb_true_r, ?orb_false_r;
        reflexivity.
    + rewrite (N.bits_above_log2 3 n) by (cbn; lia).
      rewrite (N.bits_above_log2 2 n) by (cbn; lia).
      now rewrite andb_false_r.
Qed.
